(** * send_test_email.py: a shallow embedding and its verified properties

    The script [test-scripts/send_test_email.py] builds one MIME message,
    opens one SMTP connection inside a [with] block, sends the message and
    reports the outcome on standard output.  Everything interesting it does
    is an interaction with the Python standard library ([argparse],
    [email.mime], [smtplib]) and with the network, so the embedding is a
    state-and-exception monad over a [World] (what has been printed, what
    happened on the wire, the fields of the one [smtplib.SMTP] instance) and
    an [Env] that fixes how the outside answers (the socket, the server's
    replies, argparse's reading of [sys.argv]).

    The two functions of the script, [send_email] and [main], are
    translated statement by statement.  The library entry points they call
    are modelled after the CPython 3.11 sources of [smtplib], [email] and
    [argparse], each under the name of the function it follows; what the
    network and the server do, and how argparse splits the command line,
    is left to the environment, so that the theorems hold for every server
    and every command line reading.

    Layout: Python values and exceptions; the world and the monad; the
    library models; [send_email] and [main]; concrete environments; the
    notions the statements use; then the lemmas and theorems. *)

From Stdlib Require Import String Ascii List ZArith Bool Lia DecimalString.
Import ListNotations.
Open Scope string_scope.
Open Scope Z_scope.

(** ** Python values *)

(** The values that reach the script: strings, integers and [None].
    A Python [str] is modelled by a Rocq [string], character by character:
    a character below 128 is the ASCII character of that number, one above
    stands for a character that is not ASCII.  That is the code point of the
    same number or, in a string that [sys.argv] holds for an argument with
    bytes that are not valid UTF-8, the lone surrogate that the
    [surrogateescape] error handler puts in the place of such a byte.  A
    string with a lone surrogate cannot be encoded in UTF-8; which strings
    these are is the environment's ([utf8_encode_error] below), since it
    is the interpreter that decodes the command line. *)
Inductive pyval : Type :=
| PStr (s : string)
| PInt (z : Z)
| PNone.

Definition string_of_Z (z : Z) : string := NilZero.string_of_int (Z.to_int z).

(** [str(v)], which is what an f-string field [{v}] prints. *)
Definition py_str (v : pyval) : string :=
  match v with
  | PStr s => s
  | PInt z => string_of_Z z
  | PNone => "None"
  end.

(** [bool(v)]: the truth value used by [if v:] and [not v]. *)
Definition truthy (v : pyval) : bool :=
  match v with
  | PStr s => negb (String.eqb s EmptyString)
  | PInt z => negb (z =? 0)
  | PNone => false
  end.

(** [type(v).__name__]. *)
Definition type_name (v : pyval) : string :=
  match v with
  | PStr _ => "str"
  | PInt _ => "int"
  | PNone => "NoneType"
  end.

Definition is_ascii_char (c : ascii) : bool := (nat_of_ascii c <? 128)%nat.

Fixpoint is_ascii (s : string) : bool :=
  match s with
  | EmptyString => true
  | String c r => is_ascii_char c && is_ascii r
  end.

(** *** [int(s)] on a string

    Surrounding whitespace is stripped, one sign is allowed, and the digits
    may be grouped by single underscores. *)
Definition is_space (c : ascii) : bool :=
  existsb (Nat.eqb (nat_of_ascii c)) [9; 10; 11; 12; 13; 28; 29; 30; 31; 32; 133; 160]%nat.

Definition digit_of (c : ascii) : option Z :=
  let n := nat_of_ascii c in
  if ((48 <=? n) && (n <=? 57))%nat then Some (Z.of_nat n - 48) else None.

Fixpoint lstrip (s : string) : string :=
  match s with
  | String c r => if is_space c then lstrip r else s
  | EmptyString => EmptyString
  end.

Fixpoint string_rev_onto (s acc : string) : string :=
  match s with
  | EmptyString => acc
  | String c r => string_rev_onto r (String c acc)
  end.

Definition string_rev (s : string) : string := string_rev_onto s EmptyString.

Definition strip (s : string) : string :=
  string_rev (lstrip (string_rev (lstrip s))).

(** [after_digit] tells whether the previous character was a digit: an
    underscore is only legal there, and must be followed by a digit. *)
Fixpoint int_digits (acc : Z) (after_digit : bool) (s : string) : option Z :=
  match s with
  | EmptyString => if after_digit then Some acc else None
  | String c r =>
      match digit_of c with
      | Some d => int_digits (10 * acc + d) true r
      | None =>
          if (Ascii.eqb c "_" && after_digit)%bool then
            match r with
            | String c' _ =>
                match digit_of c' with
                | Some _ => int_digits acc false r
                | None => None
                end
            | EmptyString => None
            end
          else None
      end
  end.

Definition py_int (s : string) : option Z :=
  match strip s with
  | String "-" r => option_map Z.opp (int_digits 0 false r)
  | String "+" r => int_digits 0 false r
  | r => int_digits 0 false r
  end.

(** ** Exceptions *)

(** The classes the script's handlers distinguish, their ancestors, and the
    classes the library models below raise.  [Subclass] stands for any other
    class, given by its name and its base. *)
Inductive pyclass : Type :=
| BaseException
| SystemExit
| KeyboardInterrupt
| Exception
| AttributeError
| ValueError
| OSError
| TimeoutError
| gaierror
| ConnectionError
| ConnectionRefusedError
| SMTPException
| SMTPServerDisconnected
| SMTPResponseException
| SMTPConnectError
| Subclass (name : string) (base : pyclass).

Definition pyclass_eq_dec (c d : pyclass) : {c = d} + {c <> d}.
Proof. decide equality. apply string_dec. Defined.

Definition pyclass_eqb (c d : pyclass) : bool :=
  if pyclass_eq_dec c d then true else false.

(** The method resolution order: the class itself, then its ancestors. *)
Fixpoint mro (c : pyclass) : list pyclass :=
  match c with
  | BaseException => [BaseException]
  | SystemExit => [SystemExit; BaseException]
  | KeyboardInterrupt => [KeyboardInterrupt; BaseException]
  | Exception => [Exception; BaseException]
  | AttributeError => [AttributeError; Exception; BaseException]
  | ValueError => [ValueError; Exception; BaseException]
  | OSError => [OSError; Exception; BaseException]
  | TimeoutError => [TimeoutError; OSError; Exception; BaseException]
  | gaierror => [gaierror; OSError; Exception; BaseException]
  | ConnectionError => [ConnectionError; OSError; Exception; BaseException]
  | ConnectionRefusedError =>
      [ConnectionRefusedError; ConnectionError; OSError; Exception; BaseException]
  | SMTPException => [SMTPException; OSError; Exception; BaseException]
  | SMTPServerDisconnected =>
      [SMTPServerDisconnected; SMTPException; OSError; Exception; BaseException]
  | SMTPResponseException =>
      [SMTPResponseException; SMTPException; OSError; Exception; BaseException]
  | SMTPConnectError =>
      [SMTPConnectError; SMTPResponseException; SMTPException; OSError;
       Exception; BaseException]
  | Subclass n b => Subclass n b :: mro b
  end.

Definition issubclass (c d : pyclass) : bool := existsb (pyclass_eqb d) (mro c).

(** [cls.__name__]. *)
Definition class_name (c : pyclass) : string :=
  match c with
  | BaseException => "BaseException"
  | SystemExit => "SystemExit"
  | KeyboardInterrupt => "KeyboardInterrupt"
  | Exception => "Exception"
  | AttributeError => "AttributeError"
  | ValueError => "ValueError"
  | OSError => "OSError"
  | TimeoutError => "TimeoutError"
  | gaierror => "gaierror"
  | ConnectionError => "ConnectionError"
  | ConnectionRefusedError => "ConnectionRefusedError"
  | SMTPException => "SMTPException"
  | SMTPServerDisconnected => "SMTPServerDisconnected"
  | SMTPResponseException => "SMTPResponseException"
  | SMTPConnectError => "SMTPConnectError"
  | Subclass n _ => n
  end.

(** An exception object: its class and [str(e)].  [SysExit] is
    [SystemExit(code)] with an integer code, as [sys.exit] raises it. *)
Inductive exn : Type :=
| Exn (cls : pyclass) (msg : string)
| SysExit (code : Z).

Definition type_of (e : exn) : pyclass :=
  match e with
  | Exn c _ => c
  | SysExit _ => SystemExit
  end.

Definition exn_str (e : exn) : string :=
  match e with
  | Exn _ m => m
  | SysExit code => string_of_Z code
  end.

Definition isinstance (e : exn) (c : pyclass) : bool := issubclass (type_of e) c.

(** [UnicodeEncodeError], a [UnicodeError], which is a [ValueError]. *)
Definition UnicodeEncodeError : pyclass :=
  Subclass "UnicodeEncodeError" (Subclass "UnicodeError" ValueError).

(** ** Messages ([email.message], [email.mime]) *)

(** A [MIMEText] part: its headers and its payload string. *)
Record MIMEPart : Type := mkPart {
  part_headers : list (string * string);
  part_payload : string
}.

(** A [MIMEMultipart] container: the header list in insertion order (what
    [msg[name] = value] appends to) and the attached parts. *)
Record Message : Type := mkMessage {
  headers : list (string * pyval);
  payload : list MIMEPart
}.

(** [MIMEMultipart()]: [MIMEBase.__init__] adds [Content-Type] and
    [MIME-Version]; the payload starts as the empty list. *)
Definition MIMEMultipart : Message :=
  {| headers := [("Content-Type", PStr "multipart/mixed"); ("MIME-Version", PStr "1.0")];
     payload := [] |}.

(** [msg[name] = value].  Under the default [compat32] policy
    [Message.__setitem__] appends the pair unchanged and checks nothing. *)
Definition setitem (msg : Message) (name : string) (value : pyval) : Message :=
  {| headers := headers msg ++ [(name, value)]; payload := payload msg |}.

(** [msg.attach(part)]. *)
Definition attach (msg : Message) (part : MIMEPart) : Message :=
  {| headers := headers msg; payload := payload msg ++ [part] |}.



Definition dquote : string := String (ascii_of_nat 34) EmptyString.

Definition content_type_text (subtype charset : string) : string :=
  "text/" ++ subtype ++ "; charset=" ++ dquote ++ charset ++ dquote.

(** ** The world *)

(** What [smtplib] prints through [_print_debug]. *)
Inductive debug_line : Type :=
| DbgConnectTo (host port : pyval)
| DbgConnect (msg : string)
| DbgSend (cmd : string)
| DbgReply (raw : string)
| DbgRetcode (code : Z) (msg : string)
| DbgExchange (line : string).

(** What reaches standard error: smtplib's debug lines (with a time stamp
    when the level is above 1), argparse's usage errors, and the
    interpreter's traceback of an uncaught exception. *)
Inductive stderr_item : Type :=
| Debug (timestamp : bool) (d : debug_line)
| Text (text : string)
| Traceback (e : exn).

(** What happens on the network, oldest first: a connection attempt
    ([socket.create_connection]), its success, a command sent by
    [SMTP.docmd], the transmission of a message by [SMTP.send_message]
    (with the debug level in force), the closing of the socket. *)
Inductive event : Type :=
| Connecting (host port : pyval) (timeout : Z)
| Opened
| Command (cmd : string)
| Transmit (msg : Message) (level : Z)
| Closed.

(** [stdout] has one entry per write (the argument of a [print] call, or
    the help text of argparse).  [debuglevel] and [sock] are
    the attributes of the [smtplib.SMTP] instance the script creates;
    [sock = true] means [self.sock] is a connected socket. *)
Record World : Type := mkWorld {
  stdout : list string;
  stderr : list stderr_item;
  wire : list event;
  debuglevel : Z;
  sock : bool
}.

Definition world0 : World :=
  {| stdout := []; stderr := []; wire := []; debuglevel := 0; sock := false |}.

(** ** The outside *)

(** What one read of a server reply ([SMTP.getreply]) meets: [readline]
    raising, end of file, an over-long line, or a complete reply with its
    raw lines, its code and its text. *)
Inductive read : Type :=
| ReadRaises (e : exn)
| ReadEOF
| ReadTooLong
| ReadReply (raw : list string) (code : Z) (text : string).

(** What [SMTP.send_message] does once connected: it returns, or raises [e]
    leaving the socket open or closed. *)
Inductive send_outcome : Type :=
| Sent
| SendFails (e : exn) (still_open : bool).

(** argparse: the registered arguments. *)
Inductive argtype : Type := type_str | type_int.

Record Action : Type := mkAction {
  option_string : string;
  dest : string;
  type : argtype;
  default : pyval
}.

Record ArgumentParser : Type := mkParser {
  description : string;
  actions : list Action
}.

(** What argparse makes of one piece of the command line: an option
    (under the spelling it was registered with) and its argument string, a
    request for help, or an [ArgumentError]. *)
Inductive token : Type :=
| TokOption (option_string : string) (arg_string : string)
| TokHelp
| TokError (message : string).

(** The answers of everything outside the script.  The lexical reading of
    [sys.argv] (abbreviations, [--opt=value], what counts as an argument)
    is argparse's own and is taken as [scan_argv]: the tokens in command
    line order and the strings left unrecognised.  [utf8_encode_error s]
    is what [s.encode('utf-8')] does on a string that is not ASCII: [None]
    when it returns, [Some m] when it raises [UnicodeEncodeError] with
    [str(e) = m], as it does on a string with a lone surrogate;
    [base64_utf8 s] is the base64 text of the encoding when there is one. *)
Record Env : Type := mkEnv {
  prog : string;
  format_usage : ArgumentParser -> string;
  format_help : ArgumentParser -> string;
  scan_argv : ArgumentParser -> list string -> list token * list string;
  utf8_encode_error : string -> option string;
  base64_utf8 : string -> string;
  create_connection : pyval -> pyval -> Z -> option exn;
  greeting : read;
  send_message_outcome : Message -> send_outcome;
  send_message_exchange : Message -> list string;
  quit_sendall : option exn;
  quit_reply : read
}.

(** ** The monad: state over [World] with Python exceptions *)

Inductive Outcome (A : Type) : Type :=
| Return (a : A)
| Raise (e : exn).
Arguments Return {A} a.
Arguments Raise {A} e.

Definition Py (A : Type) : Type := World -> Outcome A * World.

Definition ret {A} (a : A) : Py A := fun w => (Return a, w).

Definition raise {A} (e : exn) : Py A := fun w => (Raise e, w).

Definition bind {A B} (c : Py A) (k : A -> Py B) : Py B :=
  fun w =>
    match c w with
    | (Return a, w1) => k a w1
    | (Raise e, w1) => (Raise e, w1)
    end.

Declare Scope py_scope.
Delimit Scope py_scope with py.
Notation "x <- c ;; k" := (bind c (fun x => k))
  (at level 61, c at next level, right associativity) : py_scope.
Notation "c ;; k" := (bind c (fun _ => k))
  (at level 61, right associativity) : py_scope.
Open Scope py_scope.

(** [try: body / except C1 as e: h1 / except C2 as e: h2 ...]: the first
    clause whose class the exception is an instance of handles it; with no
    such clause the exception goes on. *)
Fixpoint select_handler {A} (clauses : list (pyclass * (exn -> Py A))) (e : exn)
  : option (Py A) :=
  match clauses with
  | [] => None
  | (c, h) :: rest => if isinstance e c then Some (h e) else select_handler rest e
  end.

Definition try_except {A} (body : Py A) (clauses : list (pyclass * (exn -> Py A)))
  : Py A :=
  fun w =>
    match body w with
    | (Return a, w1) => (Return a, w1)
    | (Raise e, w1) =>
        match select_handler clauses e with
        | Some h => h w1
        | None => (Raise e, w1)
        end
    end.

(** [try: body / finally: final].  [final] always runs; an exception it
    raises replaces the outcome of [body]. *)
Definition try_finally {A} (body : Py A) (final : Py unit) : Py A :=
  fun w =>
    match body w with
    | (r, w1) =>
        match final w1 with
        | (Return _, w2) => (r, w2)
        | (Raise e, w2) => (Raise e, w2)
        end
    end.

(** [with ctx as v: body], for a context manager whose [__enter__] returns
    the manager and whose [__exit__] returns [None] (as [smtplib.SMTP]'s do):
    if [ctx] raises, nothing else runs; otherwise [__exit__] runs however
    [body] ends, and an exception of [body] goes on afterwards. *)
Definition with_ {A} (ctx : Py unit) (__exit__ : Py unit) (body : Py A) : Py A :=
  ctx ;; try_finally body __exit__.

(** [print(s)] and writes to the other streams.  A write records its
    argument and does not fail: the streams are taken to accept every
    string (for one with lone surrogates that is the [surrogateescape]
    error handler of standard output under the C and POSIX locales, and the
    [backslashreplace] handler of standard error). *)
Definition print (s : string) : Py unit :=
  fun w => (Return tt,
            {| stdout := stdout w ++ [s]; stderr := stderr w; wire := wire w;
               debuglevel := debuglevel w; sock := sock w |}).

Definition eprint (i : stderr_item) : Py unit :=
  fun w => (Return tt,
            {| stdout := stdout w; stderr := stderr w ++ [i]; wire := wire w;
               debuglevel := debuglevel w; sock := sock w |}).

Definition emit (ev : event) : Py unit :=
  fun w => (Return tt,
            {| stdout := stdout w; stderr := stderr w; wire := wire w ++ [ev];
               debuglevel := debuglevel w; sock := sock w |}).

Definition set_sock (b : bool) : Py unit :=
  fun w => (Return tt,
            {| stdout := stdout w; stderr := stderr w; wire := wire w;
               debuglevel := debuglevel w; sock := b |}).

(** The message goes out; the event records the debug level in force. *)
Definition transmit (msg : Message) : Py unit :=
  fun w => emit (Transmit msg (debuglevel w)) w.

Fixpoint for_each {A} (f : A -> Py unit) (l : list A) : Py unit :=
  match l with
  | [] => ret tt
  | a :: r => f a ;; for_each f r
  end.

Definition nl : string := String (ascii_of_nat 10) EmptyString.

Fixpoint count_char (c : ascii) (s : string) : nat :=
  match s with
  | EmptyString => 0%nat
  | String a r => ((if Ascii.eqb a c then 1 else 0) + count_char c r)%nat
  end.

(** [(s[:i], s[i+1:])] for the first index [i] of [c] in [s]. *)
Fixpoint split_at (c : ascii) (s : string) : option (string * string) :=
  match s with
  | EmptyString => None
  | String a r =>
      if Ascii.eqb a c then Some (EmptyString, r)
      else match split_at c r with
           | Some (l, r') => Some (String a l, r')
           | None => None
           end
  end.

Section Script.

Variable E : Env.

(** ** [email.mime.text.MIMEText] *)

(** [MIMEText(_text, _subtype)].  The constructor first calls
    [_text.encode('us-ascii')]: a value without that method raises
    [AttributeError]; a string that is not ASCII switches the charset to
    utf-8.  [Message.set_payload] then encodes the text in the charset,
    with the strict error handler: on a string with a lone surrogate
    [UnicodeEncodeError] leaves the constructor.  The body encoding of
    utf-8 is base64. *)
Definition MIMEText (_text : pyval) (_subtype : string) : Py MIMEPart :=
  match _text with
  | PStr s =>
      if is_ascii s then
        ret {| part_headers := [("Content-Type", content_type_text _subtype "us-ascii");
                                ("MIME-Version", "1.0");
                                ("Content-Transfer-Encoding", "7bit")];
               part_payload := s |}
      else
        match utf8_encode_error E s with
        | Some m => raise (Exn UnicodeEncodeError m)
        | None =>
            ret {| part_headers := [("Content-Type", content_type_text _subtype "utf-8");
                                    ("MIME-Version", "1.0");
                                    ("Content-Transfer-Encoding", "base64")];
                   part_payload := base64_utf8 E s |}
        end
  | _ =>
      raise (Exn AttributeError
               ("'" ++ type_name _text ++ "' object has no attribute 'encode'"))
  end.

(** ** [smtplib.SMTP] *)

(** [SMTP.set_debuglevel]. *)
Definition SMTP_set_debuglevel (level : Z) : Py unit :=
  fun w => (Return tt,
            {| stdout := stdout w; stderr := stderr w; wire := wire w;
               debuglevel := level; sock := sock w |}).

(** [SMTP._print_debug], behind the guard [if self.debuglevel > 0] that
    every call site has. *)
Definition SMTP_debug (d : debug_line) : Py unit :=
  fun w =>
    if 0 <? debuglevel w then eprint (Debug (1 <? debuglevel w) d) w
    else (Return tt, w).

(** [SMTP.close]: closes the socket if there is one. *)
Definition SMTP_close : Py unit :=
  fun w => if sock w then (set_sock false ;; emit Closed) w else (Return tt, w).

(** [SMTP.getreply], for a read that meets [r].  An [OSError] from
    [readline] (a read timeout is one) and an end of file both close the
    connection and become [SMTPServerDisconnected]. *)
Definition SMTP_getreply (r : read) : Py (Z * string) :=
  match r with
  | ReadRaises e =>
      if isinstance e OSError then
        SMTP_close ;;
        raise (Exn SMTPServerDisconnected
                 ("Connection unexpectedly closed: " ++ exn_str e))
      else raise e
  | ReadEOF =>
      SMTP_close ;;
      raise (Exn SMTPServerDisconnected "Connection unexpectedly closed")
  | ReadTooLong =>
      SMTP_close ;;
      raise (Exn SMTPResponseException "(500, 'Line too long.')")
  | ReadReply raw code text =>
      for_each (fun l => SMTP_debug (DbgReply l)) raw ;;
      SMTP_debug (DbgRetcode code text) ;;
      ret (code, text)
  end.

(** [SMTP._get_socket]. *)
Definition SMTP_get_socket (host port : pyval) (timeout : Z) : Py unit :=
  if timeout =? 0 then
    raise (Exn ValueError "Non-blocking socket (timeout=0) is not supported")
  else
    SMTP_debug (DbgConnectTo host port) ;;
    emit (Connecting host port timeout) ;;
    match create_connection E host port timeout with
    | Some e => raise e
    | None => set_sock true ;; emit Opened
    end.

(** [SMTP.connect].  With no port given, a single [host:port] suffix is
    split off; a port that is still missing becomes 25. *)
Definition SMTP_connect (host port : pyval) (timeout : Z) : Py (Z * string) :=
  hp <- (if truthy port then ret (host, port)
         else
           match host with
           | PStr h =>
               if (count_char ":" h <=? 1)%nat then
                 match split_at ":" h with
                 | Some (h', p') =>
                     match py_int p' with
                     | Some n => ret (PStr h', PInt n)
                     | None => raise (Exn OSError "nonnumeric port")
                     end
                 | None => ret (host, port)
                 end
               else ret (host, port)
           | _ =>
               raise (Exn AttributeError
                        ("'" ++ type_name host ++ "' object has no attribute 'find'"))
           end) ;;
  let host := fst hp in
  let port := if truthy (snd hp) then snd hp else PInt 25 in
  SMTP_get_socket host port timeout ;;
  r <- SMTP_getreply (greeting E) ;;
  SMTP_debug (DbgConnect (snd r)) ;;
  ret r.

Definition response_str (code : Z) (text : string) : string :=
  "(" ++ string_of_Z code ++ ", b'" ++ text ++ "')".

(** [SMTP.__init__(host, port, timeout=timeout)]: a fresh instance has
    [debuglevel = 0] and no socket; a non-empty host is connected to at
    once, and a greeting other than 220 closes the connection again.  (The
    look-up of the local host name that ends the constructor touches
    nothing of the world.) *)
Definition SMTP_init (host port : pyval) (timeout : Z) : Py unit :=
  SMTP_set_debuglevel 0 ;;
  set_sock false ;;
  if truthy host then
    r <- SMTP_connect host port timeout ;;
    if fst r =? 220 then ret tt
    else SMTP_close ;; raise (Exn SMTPConnectError (response_str (fst r) (snd r)))
  else ret tt.

(** [SMTP.send], for a [sendall] that meets [result]. *)
Definition SMTP_send (cmd : string) (result : option exn) : Py unit :=
  SMTP_debug (DbgSend cmd) ;;
  fun w =>
    if sock w then
      (match result with
       | None => emit (Command cmd)
       | Some e =>
           if isinstance e OSError then
             SMTP_close ;; raise (Exn SMTPServerDisconnected "Server not connected")
           else raise e
       end) w
    else raise (Exn SMTPServerDisconnected "please run connect() first") w.

(** [SMTP.docmd]. *)
Definition SMTP_docmd (cmd : string) (result : option exn) (reply : read)
  : Py (Z * string) :=
  SMTP_send cmd result ;; SMTP_getreply reply.

(** [SMTP.send_message].  Its first step is an EHLO, which on an instance
    that never connected raises [SMTPServerDisconnected]; what happens on
    an open connection is the environment's.  Under a positive debug level
    the exchange is printed. *)
Definition SMTP_send_message (msg : Message) : Py unit :=
  fun w =>
    if sock w then
      (transmit msg ;;
       for_each (fun l => SMTP_debug (DbgExchange l)) (send_message_exchange E msg) ;;
       match send_message_outcome E msg with
       | Sent => ret tt
       | SendFails e still_open =>
           (if still_open then ret tt else SMTP_close) ;; raise e
       end) w
    else SMTP_send "ehlo" None w.

(** [SMTP.__exit__]: QUIT, tolerate a server that is already gone, and
    close in any case. *)
Definition SMTP_exit : Py unit :=
  try_finally
    (try_except
       (r <- SMTP_docmd "QUIT" (quit_sendall E) (quit_reply E) ;;
        if fst r =? 221 then ret tt
        else raise (Exn SMTPResponseException (response_str (fst r) (snd r))))
       [(SMTPServerDisconnected, fun _ => ret tt)])
    SMTP_close.

(** ** The script: [send_email] *)

Definition send_email (smtp_host smtp_port from_addr to_addr subject body : pyval)
  : Py unit :=
  let msg := MIMEMultipart in
  let msg := setitem msg "From" from_addr in
  let msg := setitem msg "To" to_addr in
  let msg := setitem msg "Subject" subject in
  part <- MIMEText body "plain" ;;
  let msg := attach msg part in
  try_except
    (print ("Attempting to connect to " ++ py_str smtp_host ++ ":"
            ++ py_str smtp_port ++ "...") ;;
     with_ (SMTP_init smtp_host smtp_port 10) SMTP_exit
       (SMTP_set_debuglevel 1 ;;
        print "Connected to server" ;;
        print "Attempting to send message..." ;;
        SMTP_send_message msg ;;
        print (nl ++ "Email sent successfully!") ;;
        print ("From: " ++ py_str from_addr) ;;
        print ("To: " ++ py_str to_addr) ;;
        print ("Subject: " ++ py_str subject) ;;
        print ("Body: " ++ py_str body)))
    [(ConnectionRefusedError, fun _ =>
        print ("Connection refused - Is the SMTP server running on "
               ++ py_str smtp_host ++ ":" ++ py_str smtp_port ++ "?"));
     (SMTPServerDisconnected, fun e =>
        print ("Server disconnected: " ++ exn_str e) ;;
        print "This might happen if:" ;;
        print "1. The server doesn't accept the connection" ;;
        print "2. The server requires authentication" ;;
        print "3. The server closed the connection unexpectedly");
     (Exception, fun e =>
        print ("Failed to send email: " ++ exn_str e) ;;
        print ("Error type: " ++ class_name (type_of e)))].

(** ** [argparse] *)

(** A [Namespace]: attribute names and their values. *)
Definition Namespace : Type := list (string * pyval).

Fixpoint lookup (ns : Namespace) (name : string) : option pyval :=
  match ns with
  | [] => None
  | (n, v) :: r => if String.eqb n name then Some v else lookup r name
  end.

Definition hasattr (ns : Namespace) (name : string) : bool :=
  match lookup ns name with Some _ => true | None => false end.

Fixpoint setattr (ns : Namespace) (name : string) (v : pyval) : Namespace :=
  match ns with
  | [] => [(name, v)]
  | (n, x) :: r =>
      if String.eqb n name then (n, v) :: r else (n, x) :: setattr r name v
  end.

(** [ns.name]. *)
Definition getattr (ns : Namespace) (name : string) : Py pyval :=
  match lookup ns name with
  | Some v => ret v
  | None =>
      raise (Exn AttributeError
               ("'Namespace' object has no attribute '" ++ name ++ "'"))
  end.

(** [argparse.ArgumentParser(description=...)]. *)
Definition ArgumentParser_new (description : string) : ArgumentParser :=
  {| description := description; actions := [] |}.

Fixpoint lstrip_dash (s : string) : string :=
  match s with
  | String "-" r => lstrip_dash r
  | _ => s
  end.

Fixpoint dash_to_underscore (s : string) : string :=
  match s with
  | EmptyString => EmptyString
  | String c r => String (if Ascii.eqb c "-" then "_"%char else c) (dash_to_underscore r)
  end.

(** [parser.add_argument(option_string, dest=..., type=..., default=...)].
    Without [dest=] the attribute name is the option string without its
    leading dashes, inner dashes turned into underscores. *)
Definition add_argument (p : ArgumentParser) (option_string : string)
  (dest : option string) (type : argtype) (default : pyval) : ArgumentParser :=
  {| description := description p;
     actions := actions p ++
       [{| option_string := option_string;
           dest := match dest with
                   | Some d => d
                   | None => dash_to_underscore (lstrip_dash option_string)
                   end;
           type := type;
           default := default |}] |}.

Fixpoint find_action (l : list Action) (opt : string) : option Action :=
  match l with
  | [] => None
  | a :: r => if String.eqb (option_string a) opt then Some a else find_action r opt
  end.

(** [parser.exit(status, message)] and [parser.error(message)]. *)
Definition parser_exit {A} (status : Z) : Py A := raise (SysExit status).

Definition parser_error {A} (p : ArgumentParser) (message : string) : Py A :=
  eprint (Text (format_usage E p)) ;;
  eprint (Text (prog E ++ ": error: " ++ message ++ nl)) ;;
  parser_exit 2.

(** [parser._get_value]: the [type=] conversion of an argument string. *)
Definition get_value (a : Action) (arg_string : string) : option pyval :=
  match type a with
  | type_str => Some (PStr arg_string)
  | type_int => option_map PInt (py_int arg_string)
  end.

(** The actions taken along the command line: a store action converts its
    argument and sets its attribute, the help action prints the help on
    standard output and exits with status 0, an [ArgumentError] ends in
    [parser.error]. *)
Fixpoint take_actions (p : ArgumentParser) (tokens : list token) (ns : Namespace)
  : Py Namespace :=
  match tokens with
  | [] => ret ns
  | TokOption opt arg_string :: rest =>
      match find_action (actions p) opt with
      | None => parser_error p ("unrecognized arguments: " ++ opt)
      | Some a =>
          match get_value a arg_string with
          | Some v => take_actions p rest (setattr ns (dest a) v)
          | None =>
              parser_error p ("argument " ++ opt ++ ": invalid int value: '"
                              ++ arg_string ++ "'")
          end
      end
  | TokHelp :: _ => print (format_help E p) ;; parser_exit 0
  | TokError message :: _ => parser_error p message
  end.

(** [parser.parse_known_args]: the namespace starts with every default. *)
Definition parse_known_args (p : ArgumentParser) (args : list string)
  : Py (Namespace * list string) :=
  let namespace :=
    fold_left (fun ns a => if hasattr ns (dest a) then ns
                           else setattr ns (dest a) (default a))
      (actions p) [] in
  ns <- take_actions p (fst (scan_argv E p args)) namespace ;;
  ret (ns, snd (scan_argv E p args)).

(** [parser.parse_args]. *)
Definition parse_args (p : ArgumentParser) (args : list string) : Py Namespace :=
  r <- parse_known_args p args ;;
  match snd r with
  | [] => ret (fst r)
  | argv => parser_error p ("unrecognized arguments: " ++ String.concat " " argv)
  end.

(** ** The script: [main] *)

Definition parser : ArgumentParser :=
  let parser := ArgumentParser_new "Send a test email to a local SMTP server" in
  let parser := add_argument parser "--host" None type_str (PStr "localhost") in
  let parser := add_argument parser "--port" None type_int (PInt 25) in
  let parser := add_argument parser "--from" (Some "from_addr") type_str
                  (PStr "sender@example.com") in
  let parser := add_argument parser "--to" (Some "to_addr") type_str
                  (PStr "recipient@example.com") in
  let parser := add_argument parser "--subject" None type_str
                  (PStr "Test Subject Word1 Word2") in
  let parser := add_argument parser "--body" None type_str
                  (PStr "This is a test email body.") in
  parser.

(** [argv] is [sys.argv[1:]]. *)
Definition main (argv : list string) : Py unit :=
  args <- parse_args parser argv ;;
  host <- getattr args "host" ;;
  port <- getattr args "port" ;;
  from_addr <- getattr args "from_addr" ;;
  to_addr <- getattr args "to_addr" ;;
  subject <- getattr args "subject" ;;
  body <- getattr args "body" ;;
  send_email host port from_addr to_addr subject body.

(** [if __name__ == "__main__": main()] in a fresh process: the exit status
    and the final world.  A normal return exits with 0, [SystemExit(code)]
    with [code]; any other uncaught exception prints a traceback and exits
    with 1 (130 after [KeyboardInterrupt]). *)
Definition run_script (argv : list string) : Z * World :=
  match main argv world0 with
  | (Return _, w) => (0, w)
  | (Raise (SysExit code), w) => (code, w)
  | (Raise e, w) =>
      (if isinstance e KeyboardInterrupt then 130 else 1,
       snd (eprint (Traceback e) w))
  end.

End Script.

(** ** Concrete environments

    Used to run the script on examples.  [scan_plain] reads a command line
    the way argparse does when every option is spelled out in full and is
    followed by its argument as a separate string that does not start with
    a dash: [-h] and [--help] ask for help, an option at the very end lacks
    its argument, and any other string is left unrecognised. *)

Fixpoint scan_plain (opts : list string) (args : list string)
  : list token * list string :=
  match args with
  | [] => ([], [])
  | a :: rest =>
      if (String.eqb a "-h" || String.eqb a "--help")%bool then ([TokHelp], [])
      else if existsb (String.eqb a) opts then
        match rest with
        | v :: rest' =>
            (TokOption a v :: fst (scan_plain opts rest'), snd (scan_plain opts rest'))
        | [] => ([TokError ("argument " ++ a ++ ": expected one argument")], [])
        end
      else (fst (scan_plain opts rest), a :: snd (scan_plain opts rest))
  end.

(** A server that accepts the connection, greets with 220, takes the
    message and answers QUIT with 221. *)
Definition env_ok : Env :=
  {| prog := "send_test_email.py";
     format_usage := fun _ => "usage: send_test_email.py [-h] ...";
     format_help := fun p => "usage: send_test_email.py [-h] ..." ++ nl ++ description p;
     scan_argv := fun p => scan_plain (map option_string (actions p));
     utf8_encode_error := fun _ => None;
     base64_utf8 := fun s => s;
     create_connection := fun _ _ _ => None;
     greeting := ReadReply ["220 mail.example.com ESMTP"] 220 "mail.example.com ESMTP";
     send_message_outcome := fun _ => Sent;
     send_message_exchange := fun _ => ["send: ehlo"; "reply: 250"; "send: mail FROM";
                                        "reply: 250"; "send: rcpt TO"; "reply: 250";
                                        "send: data"; "reply: 354"; "reply: 250"];
     quit_sendall := None;
     quit_reply := ReadReply ["221 Bye"] 221 "Bye" |}.

Definition with_network (E : Env) (conn : option exn) (greet : read)
  (send : send_outcome) (quit : read) : Env :=
  {| prog := prog E; format_usage := format_usage E; format_help := format_help E;
     scan_argv := scan_argv E; utf8_encode_error := utf8_encode_error E;
     base64_utf8 := base64_utf8 E;
     create_connection := fun _ _ _ => conn;
     greeting := greet;
     send_message_outcome := fun _ => send;
     send_message_exchange := send_message_exchange E;
     quit_sendall := quit_sendall E;
     quit_reply := quit |}.

(** Nothing listens on the port. *)
Definition env_refused : Env :=
  with_network env_ok (Some (Exn ConnectionRefusedError "[Errno 111] Connection refused"))
    (greeting env_ok) Sent (quit_reply env_ok).

(** The server accepts the connection and never says anything: the read
    of the greeting times out. *)
Definition env_silent : Env :=
  with_network env_ok None (ReadRaises (Exn TimeoutError "timed out"))
    Sent (quit_reply env_ok).

(** The server accepts the connection and closes it before greeting. *)
Definition env_hangup : Env :=
  with_network env_ok None ReadEOF Sent (quit_reply env_ok).

(** The connection attempt itself times out. *)
Definition env_unreachable : Env :=
  with_network env_ok (Some (Exn TimeoutError "timed out"))
    (greeting env_ok) Sent (quit_reply env_ok).

(** The server drops the connection while the message is sent. *)
Definition env_dropped : Env :=
  with_network env_ok None (greeting env_ok)
    (SendFails (Exn SMTPServerDisconnected "Connection unexpectedly closed") false)
    (quit_reply env_ok).

(** The user interrupts the program while the message is sent. *)
Definition env_interrupted : Env :=
  with_network env_ok None (greeting env_ok)
    (SendFails (Exn KeyboardInterrupt EmptyString) true) (quit_reply env_ok).

(** The command line holds an argument with the byte 255, which is not
    valid UTF-8: the string that stands for it holds a lone surrogate. *)
Definition env_undecodable : Env :=
  {| prog := prog env_ok; format_usage := format_usage env_ok;
     format_help := format_help env_ok; scan_argv := scan_argv env_ok;
     utf8_encode_error := fun s =>
       if String.eqb s (String (ascii_of_nat 255) EmptyString) then
         Some "'utf-8' codec can't encode character '\udcff' in position 0: surrogates not allowed"
       else None;
     base64_utf8 := base64_utf8 env_ok;
     create_connection := create_connection env_ok;
     greeting := greeting env_ok;
     send_message_outcome := send_message_outcome env_ok;
     send_message_exchange := send_message_exchange env_ok;
     quit_sendall := quit_sendall env_ok;
     quit_reply := quit_reply env_ok |}.

(** ** Notions used by the statements *)

(** A string that [MIMEText] takes: plain ASCII, or one that has an
    encoding in UTF-8. *)
Definition encodable (E : Env) (s : string) : bool :=
  is_ascii s || match utf8_encode_error E s with None => true | Some _ => false end.

(** The parts of [send_email], named: the message it builds, the body of
    its [try] statement, and its three [except] clauses. *)
Definition build_message (from_addr to_addr subject : pyval) (part : MIMEPart)
  : Message :=
  attach (setitem (setitem (setitem MIMEMultipart "From" from_addr) "To" to_addr)
            "Subject" subject) part.

Definition with_body (E : Env) (from_addr to_addr subject body : pyval)
  (msg : Message) : Py unit :=
  SMTP_set_debuglevel 1 ;;
  print "Connected to server" ;;
  print "Attempting to send message..." ;;
  SMTP_send_message E msg ;;
  print (nl ++ "Email sent successfully!") ;;
  print ("From: " ++ py_str from_addr) ;;
  print ("To: " ++ py_str to_addr) ;;
  print ("Subject: " ++ py_str subject) ;;
  print ("Body: " ++ py_str body).

Definition attempting (smtp_host smtp_port : pyval) : string :=
  "Attempting to connect to " ++ py_str smtp_host ++ ":" ++ py_str smtp_port ++ "...".

Definition try_block (E : Env) (smtp_host smtp_port from_addr to_addr subject body : pyval)
  (msg : Message) : Py unit :=
  print (attempting smtp_host smtp_port) ;;
  with_ (SMTP_init E smtp_host smtp_port 10) (SMTP_exit E)
    (with_body E from_addr to_addr subject body msg).

Definition except_clauses (smtp_host smtp_port : pyval)
  : list (pyclass * (exn -> Py unit)) :=
  [(ConnectionRefusedError, fun _ =>
      print ("Connection refused - Is the SMTP server running on "
             ++ py_str smtp_host ++ ":" ++ py_str smtp_port ++ "?"));
   (SMTPServerDisconnected, fun e =>
      print ("Server disconnected: " ++ exn_str e) ;;
      print "This might happen if:" ;;
      print "1. The server doesn't accept the connection" ;;
      print "2. The server requires authentication" ;;
      print "3. The server closed the connection unexpectedly");
   (Exception, fun e =>
      print ("Failed to send email: " ++ exn_str e) ;;
      print ("Error type: " ++ class_name (type_of e)))].

Definition echo_success (from_addr to_addr subject body : pyval) : Py unit :=
  print (nl ++ "Email sent successfully!") ;;
  print ("From: " ++ py_str from_addr) ;;
  print ("To: " ++ py_str to_addr) ;;
  print ("Subject: " ++ py_str subject) ;;
  print ("Body: " ++ py_str body).

Definition refused_report (smtp_host smtp_port : pyval) : list string :=
  ["Connection refused - Is the SMTP server running on "
   ++ py_str smtp_host ++ ":" ++ py_str smtp_port ++ "?"].

Definition disconnected_report (e : exn) : list string :=
  ["Server disconnected: " ++ exn_str e;
   "This might happen if:";
   "1. The server doesn't accept the connection";
   "2. The server requires authentication";
   "3. The server closed the connection unexpectedly"].

Definition other_report (e : exn) : list string :=
  ["Failed to send email: " ++ exn_str e;
   "Error type: " ++ class_name (type_of e)].


(** The report the [except] clauses print for [e]. *)
Definition report (smtp_host smtp_port : pyval) (e : exn) : list string :=
  if isinstance e ConnectionRefusedError then refused_report smtp_host smtp_port
  else if isinstance e SMTPServerDisconnected then disconnected_report e
  else other_report e.

(** [w] after the lines [ls] have been printed. *)
Definition printed (ls : list string) (w : World) : World :=
  {| stdout := stdout w ++ ls; stderr := stderr w; wire := wire w;
     debuglevel := debuglevel w; sock := sock w |}.

(** Connections opened and not yet closed, counted along the wire. *)
Fixpoint open_connections (l : list event) : Z :=
  match l with
  | [] => 0
  | Opened :: r => open_connections r + 1
  | Closed :: r => open_connections r - 1
  | _ :: r => open_connections r
  end.

Definition is_connecting (ev : event) : bool :=
  match ev with Connecting _ _ _ => true | _ => false end.

Definition is_transmit (ev : event) : bool :=
  match ev with Transmit _ _ => true | _ => false end.

(** The connection attempts and the message transmissions on the wire. *)
Definition connects (w : World) : list event := filter is_connecting (wire w).
Definition transmissions (w : World) : list event := filter is_transmit (wire w).

(** An environment in which the network and the server only ever fail
    with exceptions derived from [Exception] (no [KeyboardInterrupt]). *)
Definition orderly_read (r : read) : Prop :=
  forall e, r = ReadRaises e -> isinstance e Exception = true.

Definition orderly (E : Env) : Prop :=
  (forall h p t e, create_connection E h p t = Some e -> isinstance e Exception = true)
  /\ orderly_read (greeting E)
  /\ (forall m e b, send_message_outcome E m = SendFails e b ->
                    isinstance e Exception = true)
  /\ (forall e, quit_sendall E = Some e -> isinstance e Exception = true)
  /\ orderly_read (quit_reply E).

(** A read of the greeting that fails, fails with a socket error. *)
Definition greeting_errors_are_OSError (E : Env) : Prop :=
  forall e, greeting E = ReadRaises e -> isinstance e OSError = true.

(** The option [opt] does not occur on the command line. *)
Definition omitted (E : Env) (argv : list string) (opt : string) : Prop :=
  forall arg_string, ~ In (TokOption opt arg_string) (fst (scan_argv E parser argv)).

(** Hoare triples for the monad: from a world satisfying [P], a normal
    return ends in a world satisfying [Q], an exception [e] in one
    satisfying [X e]. *)
Definition hoare {A} (P : World -> Prop) (c : Py A) (Q : World -> Prop)
  (X : exn -> World -> Prop) : Prop :=
  forall w, P w ->
    match c w with
    | (Return _, w') => Q w'
    | (Raise e, w') => X e w'
    end.

(** [c] raises nothing but exceptions satisfying [R]. *)
Definition raises_only {A} (R : exn -> Prop) (c : Py A) : Prop :=
  hoare (fun _ => True) c (fun _ => True) (fun e _ => R e).

(** Invariants of the world along a run. *)

(** Beyond [base] connections left open by others, the only open
    connection is the socket of the SMTP instance, if it has one. *)
Definition tracked (base : Z) (w : World) : Prop :=
  open_connections (wire w) = base + (if sock w then 1 else 0).

Definition released (base : Z) (w : World) : Prop :=
  open_connections (wire w) = base /\ sock w = false.

(** Since [w0], every connection attempt used the timeout [t0]. *)
Definition connects_with_timeout (t0 : Z) (w0 w : World) : Prop :=
  forall h p t,
    In (Connecting h p t) (wire w) -> In (Connecting h p t) (wire w0) \/ t = t0.

(** Since [w0], only [msg] was transmitted, under debug level [level]. *)
Definition transmits_only (msg : Message) (level : Z) (w0 w : World) : Prop :=
  forall m l,
    In (Transmit m l) (wire w) -> In (Transmit m l) (wire w0) \/ (m = msg /\ l = level).

Definition stdout_from (pre : list string) (w : World) : Prop :=
  exists rest, stdout w = (pre ++ rest)%list.

Definition stderr_from (pre : list stderr_item) (w : World) : Prop :=
  exists rest, stderr w = (pre ++ rest)%list.

(** [l] is [l0], or [l0] with one more element. *)
Definition at_most_one_more {A} (l0 l : list A) : Prop :=
  l = l0 \/ exists a, l = (l0 ++ [a])%list.

(** The namespace [parse_known_args] starts from: every default. *)
Definition defaults : Namespace :=
  [("host", PStr "localhost"); ("port", PInt 25);
   ("from_addr", PStr "sender@example.com"); ("to_addr", PStr "recipient@example.com");
   ("subject", PStr "Test Subject Word1 Word2");
   ("body", PStr "This is a test email body.")].

(** The namespace [main] needs: the six attributes, the body a string. *)
Definition complete (ns : Namespace) : Prop :=
  exists host port from_addr to_addr subject body,
    lookup ns "host" = Some host /\ lookup ns "port" = Some port
    /\ lookup ns "from_addr" = Some from_addr /\ lookup ns "to_addr" = Some to_addr
    /\ lookup ns "subject" = Some subject /\ lookup ns "body" = Some (PStr body).

(** ** The Hoare rules *)

Section Rules.

Context {A B : Type}.
Variables (P Q : World -> Prop) (X : exn -> World -> Prop).

Lemma hoare_ret (a : A) : (forall w, P w -> Q w) -> hoare P (ret a) Q X.
Proof. intros H w Hw. simpl. auto. Qed.

Lemma hoare_raise (e : exn) : (forall w, P w -> X e w) -> hoare P (@raise A e) Q X.
Proof. intros H w Hw. simpl. auto. Qed.

Lemma hoare_bind (M : World -> Prop) (c : Py A) (k : A -> Py B) :
  hoare P c M X -> (forall a, hoare M (k a) Q X) -> hoare P (bind c k) Q X.
Proof.
  intros Hc Hk w Hw. unfold bind. specialize (Hc w Hw).
  destruct (c w) as [[a|e] w1]; [apply (Hk a w1 Hc) | exact Hc].
Qed.

Lemma hoare_try_except (Y : exn -> World -> Prop) (body : Py A)
  (clauses : list (pyclass * (exn -> Py A))) :
  hoare P body Q Y ->
  (forall e, match select_handler clauses e with
             | Some h => hoare (Y e) h Q X
             | None => forall w, Y e w -> X e w
             end) ->
  hoare P (try_except body clauses) Q X.
Proof.
  intros Hb Hh w Hw. unfold try_except. specialize (Hb w Hw).
  destruct (body w) as [[a|e] w1]; [exact Hb |].
  specialize (Hh e). destruct (select_handler clauses e) as [h|].
  - apply (Hh w1 Hb).
  - apply (Hh w1 Hb).
Qed.

Lemma hoare_try_finally (M : World -> Prop) (Y : exn -> World -> Prop)
  (body : Py A) (final : Py unit) :
  hoare P body M Y ->
  hoare M final Q X ->
  (forall e, hoare (Y e) final (X e) X) ->
  hoare P (try_finally body final) Q X.
Proof.
  intros Hb Hq Hx w Hw. unfold try_finally. specialize (Hb w Hw).
  destruct (body w) as [[a|e] w1].
  - specialize (Hq w1 Hb). destruct (final w1) as [[u|e'] w2]; exact Hq.
  - specialize (Hx e w1 Hb). destruct (final w1) as [[u|e'] w2]; exact Hx.
Qed.

Lemma hoare_if_sock (c1 c2 : Py A) :
  hoare (fun w => P w /\ sock w = true) c1 Q X ->
  hoare (fun w => P w /\ sock w = false) c2 Q X ->
  hoare P (fun w => if sock w then c1 w else c2 w) Q X.
Proof.
  intros H1 H2 w Hw. destruct (sock w) eqn:Hs; [apply H1 | apply H2]; auto.
Qed.

Lemma hoare_conseq (P' Q' : World -> Prop) (X' : exn -> World -> Prop) (c : Py A) :
  hoare P' c Q' X' ->
  (forall w, P w -> P' w) -> (forall w, Q' w -> Q w) ->
  (forall e w, X' e w -> X e w) ->
  hoare P c Q X.
Proof.
  intros H HP HQ HX w Hw. specialize (H w (HP w Hw)).
  destruct (c w) as [[a|e] w1]; auto.
Qed.

End Rules.

Lemma hoare_for_each {A} (I : World -> Prop) (X : exn -> World -> Prop)
  (f : A -> Py unit) (l : list A) :
  (forall a, hoare I (f a) I X) -> hoare I (for_each f l) I X.
Proof.
  intros Hf. induction l as [|a r IH]; simpl.
  - apply hoare_ret; auto.
  - eapply hoare_bind; [apply Hf | intros _; exact IH].
Qed.

Lemma hoare_with {A} (P M M' Q : World -> Prop) (X Y : exn -> World -> Prop)
  (ctx __exit__ : Py unit) (body : Py A) :
  hoare P ctx M X ->
  hoare M body M' Y ->
  hoare M' __exit__ Q X ->
  (forall e, hoare (Y e) __exit__ (X e) X) ->
  hoare P (with_ ctx __exit__ body) Q X.
Proof.
  intros Hc Hb Hq Hx. unfold with_.
  eapply hoare_bind; [exact Hc | intros _].
  eapply hoare_try_finally; eauto.
Qed.

Lemma hoare_sock_case {A} (P Q : World -> Prop) (X : exn -> World -> Prop)
  (c1 c2 : Py A) :
  hoare P c1 Q X -> hoare P c2 Q X ->
  hoare P (fun w => if sock w then c1 w else c2 w) Q X.
Proof.
  intros H1 H2. apply hoare_if_sock.
  - eapply hoare_conseq; [exact H1 | intros w [Hw _]; exact Hw | auto | auto].
  - eapply hoare_conseq; [exact H2 | intros w [Hw _]; exact Hw | auto | auto].
Qed.

(** Reading the command line keeps an invariant that printing keeps, and
    leaves only through [parser.exit], with status 0 or 2. *)
Lemma hoare_take_actions (I : World -> Prop) (X : exn -> World -> Prop)
  E p tokens ns :
  (forall s, hoare I (print s) I X) ->
  (forall i, hoare I (eprint i) I X) ->
  (forall w, I w -> X (SysExit 0) w) ->
  (forall w, I w -> X (SysExit 2) w) ->
  hoare I (take_actions E p tokens ns) I X.
Proof.
  intros Hp He H0 H2.
  assert (Herr : forall m, hoare I (@parser_error E Namespace p m) I X).
  { intro m. unfold parser_error, parser_exit.
    eapply hoare_bind; [apply He | intros _].
    eapply hoare_bind; [apply He | intros _].
    apply hoare_raise. exact H2. }
  revert ns. induction tokens as [|t r IH]; intro ns; simpl.
  - apply hoare_ret. auto.
  - destruct t as [opt arg| |m].
    + destruct (find_action (actions p) opt) as [a|]; [| apply Herr].
      destruct (get_value a arg); [apply IH | apply Herr].
    + eapply hoare_bind; [apply Hp | intros _].
      unfold parser_exit. apply hoare_raise. exact H0.
    + apply Herr.
Qed.

(** What [c] raises does not depend on a fact [R] that holds throughout. *)
Lemma hoare_const {A} (R : Prop) (X : exn -> World -> Prop) (c : Py A) :
  hoare (fun _ => True) c (fun _ => True) X ->
  hoare (fun _ => R) c (fun _ => R) X.
Proof.
  intros H w Hw. specialize (H w I). destruct (c w) as [[a|e] w1]; auto.
Qed.

(** [walk leaf] proves [hoare P c Q X] along the structure of [c], with
    the rules above and the library models opened.  Either [P] is kept all
    along, or [c] has one step that takes [P] to [Q], which is kept from
    there on.  What is left (the primitive steps, the raised exceptions) is
    handed to [leaf]; a triple found among the hypotheses is used as is. *)
Ltac walk_open :=
  unfold send_email, try_block, with_body, SMTP_exit, SMTP_send_message, SMTP_docmd,
    SMTP_send, SMTP_init, SMTP_connect, SMTP_get_socket, SMTP_getreply,
    MIMEText, main, parse_args, parse_known_args, getattr, parser_error, parser_exit;
  cbv zeta.

Ltac prim_step :=
  unfold SMTP_debug, SMTP_close, SMTP_set_debuglevel, transmit, print, eprint, emit,
    set_sock, bind, ret;
  repeat match goal with
         | |- context [if ?b then _ else _] => destruct b eqn:?
         end;
  simpl.

Ltac walk leaf :=
  first
    [ assumption
    | match goal with
      | H : context [hoare] |- _ => solve [apply H]
      end
    | lazymatch goal with
      | |- hoare ?P (bind _ _) ?Q _ =>
          first [ eapply hoare_bind with (M := P);
                  [solve [walk leaf] | intro; walk leaf]
                | eapply hoare_bind with (M := Q);
                  [walk leaf | intro; walk leaf] ]
      | |- hoare _ (ret _) _ _ => apply hoare_ret; intros ? ?; solve [leaf]
      | |- hoare _ (raise _) _ _ => apply hoare_raise; intros ? ?; solve [leaf]
      | |- hoare _ (try_except _ _) _ ?X =>
          eapply hoare_try_except with (Y := X);
          [ walk leaf
          | intro; cbn [select_handler except_clauses];
            repeat match goal with
                   | |- match (if ?b then _ else _) with _ => _ end =>
                       destruct b eqn:?
                   end;
            first [ walk leaf | intros ? ?; solve [leaf] ] ]
      | |- hoare ?P (try_finally _ _) ?Q ?X =>
          first [ eapply hoare_try_finally with (M := P) (Y := X);
                  [ solve [walk leaf] | walk leaf
                  | intro; first [apply hoare_const | idtac]; walk leaf ]
                | eapply hoare_try_finally with (M := Q) (Y := X);
                  [ walk leaf | walk leaf
                  | intro; first [apply hoare_const | idtac]; walk leaf ] ]
      | |- hoare ?P (with_ _ _ _) ?Q ?X =>
          first [ eapply hoare_with with (M := P) (M' := P) (Y := X);
                  [ solve [walk leaf] | solve [walk leaf] | walk leaf
                  | intro; first [apply hoare_const | idtac]; walk leaf ]
                | eapply hoare_with with (M := P) (M' := Q) (Y := X);
                  [ solve [walk leaf] | walk leaf | walk leaf
                  | intro; first [apply hoare_const | idtac]; walk leaf ]
                | eapply hoare_with with (M := Q) (M' := Q) (Y := X);
                  [ walk leaf | walk leaf | walk leaf
                  | intro; first [apply hoare_const | idtac]; walk leaf ] ]
      | |- hoare _ (for_each _ _) _ _ => apply hoare_for_each; intro; walk leaf
      | |- hoare _ (take_actions _ _ _ _) _ _ =>
          apply hoare_take_actions;
          [ intro; walk leaf | intro; walk leaf
          | intros ? ?; solve [leaf] | intros ? ?; solve [leaf] ]
      | |- hoare _ (fun w => if sock w then _ else _) _ _ =>
          apply hoare_sock_case; walk leaf
      | |- hoare _ (match ?x with _ => _ end) _ _ => destruct x eqn:?; walk leaf
      | |- hoare _ _ _ _ =>
          first [ progress walk_open; walk leaf
                | match goal with
                  | |- @hoare ?A ?P (fun w => ?c w) ?Q ?X =>
                      progress change (@hoare A P c Q X)
                  end; walk leaf
                | unfold hoare; intros ? ?; prim_step; solve [leaf] ]
      end ].

(** ** Exceptions *)

Lemma issubclass_refl c : issubclass c c = true.
Proof.
  unfold issubclass.
  assert (H : forall d, pyclass_eqb d d = true).
  { intro d. unfold pyclass_eqb. destruct (pyclass_eq_dec d d); congruence. }
  destruct c; simpl; rewrite ?H; reflexivity.
Qed.

Lemma issubclass_Subclass n b d :
  d <> Subclass n b -> issubclass (Subclass n b) d = issubclass b d.
Proof.
  intros H. unfold issubclass. simpl. unfold pyclass_eqb at 1.
  destruct (pyclass_eq_dec d (Subclass n b)); [contradiction | reflexivity].
Qed.

(** A subclass of a built-in class is a subclass of that class's bases:
    the two instances the proofs need. *)
Lemma issubclass_OSError_Exception c :
  issubclass c OSError = true -> issubclass c Exception = true.
Proof.
  induction c; try (cbv; congruence).
  rewrite !issubclass_Subclass by discriminate. assumption.
Qed.

Lemma issubclass_Timeout_OSError c :
  issubclass c TimeoutError = true -> issubclass c OSError = true.
Proof.
  induction c; try (cbv; congruence).
  rewrite !issubclass_Subclass by discriminate. assumption.
Qed.

Lemma issubclass_Disconnected_Exception c :
  issubclass c SMTPServerDisconnected = true -> issubclass c Exception = true.
Proof.
  induction c; try (cbv; congruence).
  rewrite !issubclass_Subclass by discriminate. assumption.
Qed.

Lemma issubclass_Refused_Exception c :
  issubclass c ConnectionRefusedError = true -> issubclass c Exception = true.
Proof.
  induction c; try (cbv; congruence).
  rewrite !issubclass_Subclass by discriminate. assumption.
Qed.

(** In an orderly environment the [try] block of [send_email] raises only
    exceptions derived from [Exception]. *)
Lemma try_block_raises_Exception E host port from_addr to_addr subject body msg :
  orderly E ->
  raises_only (fun e => isinstance e Exception = true)
    (try_block E host port from_addr to_addr subject body msg).
Proof.
  intros (Hc & Hg & Hs & Hq & Hr). unfold raises_only.
  walk ltac:(try exact I; try reflexivity; eauto).
Qed.

Lemma issubclass_Timeout_not_Refused c :
  issubclass c TimeoutError = true -> issubclass c ConnectionRefusedError = false.
Proof.
  induction c; try (cbv; congruence).
  rewrite !issubclass_Subclass by discriminate. assumption.
Qed.

Lemma issubclass_Timeout_not_Disconnected c :
  issubclass c TimeoutError = true -> issubclass c SMTPServerDisconnected = false.
Proof.
  induction c; try (cbv; congruence).
  rewrite !issubclass_Subclass by discriminate. assumption.
Qed.

(** ** [send_email]: how a failure is reported *)

(** [send_email] is the construction of the message followed by the [try]
    statement. *)
Lemma send_email_eq E host port from_addr to_addr subject body :
  send_email E host port from_addr to_addr subject body =
  (part <- MIMEText E body "plain" ;;
   try_except
     (try_block E host port from_addr to_addr subject body
        (build_message from_addr to_addr subject part))
     (except_clauses host port)).
Proof. reflexivity. Qed.

Lemma MIMEText_world E body subtype w r w1 :
  MIMEText E body subtype w = (r, w1) -> w1 = w.
Proof.
  unfold MIMEText, ret, raise.
  destruct body; [destruct (is_ascii s); [| destruct (utf8_encode_error E s)] |..];
    congruence.
Qed.

Lemma send_email_constructed E host port from_addr to_addr subject body part w :
  MIMEText E body "plain" w = (Return part, w) ->
  send_email E host port from_addr to_addr subject body w
  = try_except
      (try_block E host port from_addr to_addr subject body
         (build_message from_addr to_addr subject part))
      (except_clauses host port) w.
Proof. intros Hm. rewrite send_email_eq. unfold bind. rewrite Hm. reflexivity. Qed.

Lemma printed_app ls1 ls2 w : printed ls2 (printed ls1 w) = printed (ls1 ++ ls2) w.
Proof. unfold printed. simpl. rewrite app_assoc. reflexivity. Qed.

Lemma print_printed s w : print s w = (Return tt, printed [s] w).
Proof. reflexivity. Qed.

(** What the [except] clauses do with an exception of the [try] block. *)
Lemma handled E host port from_addr to_addr subject body msg e w w1 :
  try_block E host port from_addr to_addr subject body msg w = (Raise e, w1) ->
  isinstance e Exception = true ->
  try_except (try_block E host port from_addr to_addr subject body msg)
    (except_clauses host port) w
  = (Return tt, printed (report host port e) w1).
Proof.
  intros Ht He. unfold try_except, report. rewrite Ht. cbn [except_clauses select_handler].
  destruct (isinstance e ConnectionRefusedError); [reflexivity |].
  destruct (isinstance e SMTPServerDisconnected).
  - unfold bind. rewrite !print_printed, !printed_app. reflexivity.
  - rewrite He. unfold bind. rewrite !print_printed, !printed_app. reflexivity.
Qed.

Lemma report_refused host port e :
  report host port e = refused_report host port
  <-> isinstance e ConnectionRefusedError = true.
Proof.
  unfold report. destruct (isinstance e ConnectionRefusedError).
  - tauto.
  - split; [| discriminate].
    destruct (isinstance e SMTPServerDisconnected); intros H;
      apply (f_equal (@length string)) in H; discriminate.
Qed.

Lemma report_disconnected host port s :
  report host port (Exn SMTPServerDisconnected s)
  = disconnected_report (Exn SMTPServerDisconnected s).
Proof. reflexivity. Qed.

(** C1.  When the connection/send attempt (the [try] block) fails with an
    exception [e], [send_email] catches it, prints exactly one report and
    returns normally: the ConnectionRefused report for a
    [ConnectionRefusedError], the ServerDisconnected report with its three
    possible causes for an [SMTPServerDisconnected], and for any other
    exception (any other instance of [Exception]) the generic report with
    [str(e)] and the name of its class.  Every failure the network or the
    server can cause is such an instance. *)
Theorem send_email_classifies_failure
  E host port from_addr to_addr subject body part e w w1 :
  MIMEText E body "plain" w = (Return part, w) ->
  try_block E host port from_addr to_addr subject body
    (build_message from_addr to_addr subject part) w = (Raise e, w1) ->
  (isinstance e ConnectionRefusedError = true ->
   send_email E host port from_addr to_addr subject body w
   = (Return tt, printed (refused_report host port) w1))
  /\ (isinstance e ConnectionRefusedError = false ->
      isinstance e SMTPServerDisconnected = true ->
      send_email E host port from_addr to_addr subject body w
      = (Return tt, printed (disconnected_report e) w1))
  /\ (isinstance e ConnectionRefusedError = false ->
      isinstance e SMTPServerDisconnected = false ->
      isinstance e Exception = true ->
      send_email E host port from_addr to_addr subject body w
      = (Return tt, printed (other_report e) w1))
  /\ (orderly E -> isinstance e Exception = true).
Proof.
  intros Hm Ht.
  split; [| split; [| split]];
    [| | | intros Ho;
           pose proof (try_block_raises_Exception E host port from_addr to_addr
                         subject body
                         (build_message from_addr to_addr subject part) Ho w I) as Hr;
           rewrite Ht in Hr; exact Hr ];
    rewrite (send_email_constructed _ _ _ _ _ _ _ _ _ Hm).
  - intros H1. rewrite (handled _ _ _ _ _ _ _ _ _ _ _ Ht).
    + unfold report. rewrite H1. reflexivity.
    + apply issubclass_Refused_Exception. exact H1.
  - intros H1 H2. rewrite (handled _ _ _ _ _ _ _ _ _ _ _ Ht).
    + unfold report. rewrite H1, H2. reflexivity.
    + apply issubclass_Disconnected_Exception. exact H2.
  - intros H1 H2 H3. rewrite (handled _ _ _ _ _ _ _ _ _ _ _ Ht H3).
    unfold report. rewrite H1, H2. reflexivity.
Qed.

(** The three reports: nothing listens on the port; the server hangs up
    before its greeting; the connection attempt times out. *)
Lemma send_email_classifies_failure_witness :
  send_email env_refused (PStr "localhost") (PInt 25) (PStr "a@example.com")
    (PStr "b@example.com") (PStr "Hi") (PStr "Hello") world0
  = (Return tt,
     {| stdout := ["Attempting to connect to localhost:25...";
                   "Connection refused - Is the SMTP server running on localhost:25?"];
        stderr := [];
        wire := [Connecting (PStr "localhost") (PInt 25) 10];
        debuglevel := 0; sock := false |})
  /\ send_email env_hangup (PStr "localhost") (PInt 25) (PStr "a@example.com")
       (PStr "b@example.com") (PStr "Hi") (PStr "Hello") world0
     = (Return tt,
        {| stdout := ["Attempting to connect to localhost:25...";
                      "Server disconnected: Connection unexpectedly closed";
                      "This might happen if:";
                      "1. The server doesn't accept the connection";
                      "2. The server requires authentication";
                      "3. The server closed the connection unexpectedly"];
           stderr := [];
           wire := [Connecting (PStr "localhost") (PInt 25) 10; Opened; Closed];
           debuglevel := 0; sock := false |})
  /\ send_email env_unreachable (PStr "localhost") (PInt 25) (PStr "a@example.com")
       (PStr "b@example.com") (PStr "Hi") (PStr "Hello") world0
     = (Return tt,
        {| stdout := ["Attempting to connect to localhost:25...";
                      "Failed to send email: timed out";
                      "Error type: TimeoutError"];
           stderr := [];
           wire := [Connecting (PStr "localhost") (PInt 25) 10];
           debuglevel := 0; sock := false |}).
Proof.
  split; [| split].
  - exact (proj1 (send_email_classifies_failure env_refused (PStr "localhost")
                    (PInt 25) (PStr "a@example.com") (PStr "b@example.com")
                    (PStr "Hi") (PStr "Hello") _ _ world0 _ eq_refl eq_refl) eq_refl).
  - exact (proj1 (proj2 (send_email_classifies_failure env_hangup (PStr "localhost")
                           (PInt 25) (PStr "a@example.com") (PStr "b@example.com")
                           (PStr "Hi") (PStr "Hello") _ _ world0 _ eq_refl eq_refl))
             eq_refl eq_refl).
  - exact (proj1 (proj2 (proj2 (send_email_classifies_failure env_unreachable
                                  (PStr "localhost") (PInt 25) (PStr "a@example.com")
                                  (PStr "b@example.com") (PStr "Hi") (PStr "Hello")
                                  _ _ world0 _ eq_refl eq_refl)))
             eq_refl eq_refl eq_refl).
Defined.

(** ** [send_email]: an error while the message is built *)

(** C9.  The message is built before the [try] statement: when
    [MIMEText] raises, the exception leaves [send_email] as it is, nothing
    has been printed or sent, and no report is made, although the
    exception is one the last [except] clause would have caught. *)
Theorem construction_error_propagates
  E host port from_addr to_addr subject body e w w1 :
  MIMEText E body "plain" w = (Raise e, w1) ->
  send_email E host port from_addr to_addr subject body w = (Raise e, w)
  /\ isinstance e Exception = true.
Proof.
  intros Hm. pose proof (MIMEText_world _ _ _ _ _ _ Hm) as ->. split.
  - rewrite send_email_eq. unfold bind. rewrite Hm. reflexivity.
  - unfold MIMEText in Hm.
    destruct body;
      [destruct (is_ascii s);
         [discriminate Hm
         | destruct (utf8_encode_error E s); [| discriminate Hm]] | |];
      injection Hm as <-; reflexivity.
Qed.

(** A body that is [None] makes [MIMEText] raise [AttributeError]. *)
Lemma construction_error_propagates_witness :
  send_email env_ok (PStr "localhost") (PInt 25) (PStr "a@example.com")
    (PStr "b@example.com") (PStr "Hi") PNone world0
  = (Raise (Exn AttributeError "'NoneType' object has no attribute 'encode'"), world0).
Proof.
  exact (proj1 (construction_error_propagates env_ok (PStr "localhost") (PInt 25)
                  (PStr "a@example.com") (PStr "b@example.com") (PStr "Hi") PNone
                  _ world0 world0 eq_refl)).
Defined.

(** ** [send_email]: a failing connection attempt *)

Lemma try_block_init_fails E host port from_addr to_addr subject body msg e w w1 :
  SMTP_init E host port 10 (printed [attempting host port] w) = (Raise e, w1) ->
  try_block E host port from_addr to_addr subject body msg w = (Raise e, w1).
Proof.
  intros Hi. unfold try_block, with_, bind at 1. rewrite print_printed.
  unfold bind. rewrite Hi. reflexivity.
Qed.

(** The connection is refused, or fails in any other way, before a socket
    exists. *)
Lemma SMTP_init_no_connection E host port e w :
  truthy host = true -> truthy port = true ->
  create_connection E host port 10 = Some e ->
  SMTP_init E host port 10 w
  = (Raise e,
     {| stdout := stdout w; stderr := stderr w;
        wire := wire w ++ [Connecting host port 10];
        debuglevel := 0; sock := false |}).
Proof.
  intros Hh Hp Hc.
  unfold SMTP_init, SMTP_connect, SMTP_get_socket, SMTP_debug, SMTP_set_debuglevel,
    set_sock, emit, bind, ret, raise.
  simpl. rewrite Hh, Hp. simpl. rewrite Hp, Hc. reflexivity.
Qed.

(** The connection is made and the read of the greeting fails with an
    [OSError]: [getreply] closes the socket and raises
    [SMTPServerDisconnected]. *)
Lemma SMTP_init_no_greeting E host port e w :
  truthy host = true -> truthy port = true ->
  create_connection E host port 10 = None ->
  greeting E = ReadRaises e ->
  isinstance e OSError = true ->
  SMTP_init E host port 10 w
  = (Raise (Exn SMTPServerDisconnected
              ("Connection unexpectedly closed: " ++ exn_str e)),
     {| stdout := stdout w; stderr := stderr w;
        wire := wire w ++ [Connecting host port 10; Opened; Closed];
        debuglevel := 0; sock := false |}).
Proof.
  intros Hh Hp Hc Hg He.
  unfold SMTP_init, SMTP_connect, SMTP_get_socket, SMTP_getreply, SMTP_close,
    SMTP_debug, SMTP_set_debuglevel, set_sock, emit, bind, ret, raise.
  simpl. rewrite Hh, Hp. simpl. rewrite Hp, Hc, Hg, He. simpl.
  rewrite <- !app_assoc. reflexivity.
Qed.

(** C10, as amended.  When the connection attempt
    ([smtplib.SMTP(host, port, timeout=10)]) fails with an exception [e]
    derived from [Exception], [send_email] prints one report and returns.
    The report is the ConnectionRefused one exactly when [e] is a
    [ConnectionRefusedError]; an [SMTPServerDisconnected] (the server
    closed the connection, or the read of its greeting failed or timed
    out) gets the ServerDisconnected report; every other failure gets the
    generic report with the name of its class. *)
Theorem connection_failure_report
  E host port from_addr to_addr subject body part e w w1 :
  MIMEText E body "plain" w = (Return part, w) ->
  SMTP_init E host port 10 (printed [attempting host port] w) = (Raise e, w1) ->
  isinstance e Exception = true ->
  send_email E host port from_addr to_addr subject body w
  = (Return tt, printed (report host port e) w1)
  /\ (report host port e = refused_report host port
      <-> isinstance e ConnectionRefusedError = true)
  /\ (isinstance e ConnectionRefusedError = false ->
      isinstance e SMTPServerDisconnected = true ->
      report host port e = disconnected_report e)
  /\ (isinstance e ConnectionRefusedError = false ->
      isinstance e SMTPServerDisconnected = false ->
      report host port e = other_report e).
Proof.
  intros Hm Hi He. split; [| split; [| split]].
  - rewrite (send_email_constructed _ _ _ _ _ _ _ _ _ Hm).
    apply handled; [| exact He]. apply try_block_init_fails. exact Hi.
  - apply report_refused.
  - intros H1 H2. unfold report. rewrite H1, H2. reflexivity.
  - intros H1 H2. unfold report. rewrite H1, H2. reflexivity.
Qed.

(** A connection attempt that times out is reported by the generic
    branch, with the class name [TimeoutError]. *)
Lemma connection_failure_report_witness :
  send_email env_unreachable (PStr "localhost") (PInt 25) (PStr "a@example.com")
    (PStr "b@example.com") (PStr "Hi") (PStr "Hello") world0
  = (Return tt,
     {| stdout := ["Attempting to connect to localhost:25...";
                   "Failed to send email: timed out";
                   "Error type: TimeoutError"];
        stderr := [];
        wire := [Connecting (PStr "localhost") (PInt 25) 10];
        debuglevel := 0; sock := false |}).
Proof.
  exact (proj1 (connection_failure_report env_unreachable (PStr "localhost") (PInt 25)
                  (PStr "a@example.com") (PStr "b@example.com") (PStr "Hi")
                  (PStr "Hello") _ (Exn TimeoutError "timed out") world0 _
                  eq_refl eq_refl eq_refl)).
Defined.

(** The claim as stated fails: a server that hangs up before its greeting
    makes the connection attempt fail with an exception that is no
    [ConnectionRefusedError], and the report is the ServerDisconnected
    one, not the generic one. *)
Lemma connection_failure_not_always_other :
  fst (SMTP_init env_hangup (PStr "localhost") (PInt 25) 10
         (printed [attempting (PStr "localhost") (PInt 25)] world0))
  = Raise (Exn SMTPServerDisconnected "Connection unexpectedly closed")
  /\ isinstance (Exn SMTPServerDisconnected "Connection unexpectedly closed")
       ConnectionRefusedError = false
  /\ stdout (snd (run_script env_hangup []))
     = ["Attempting to connect to localhost:25...";
        "Server disconnected: Connection unexpectedly closed";
        "This might happen if:";
        "1. The server doesn't accept the connection";
        "2. The server requires authentication";
        "3. The server closed the connection unexpectedly"]
  /\ existsb (String.prefix "Error type: ") (stdout (snd (run_script env_hangup [])))
     = false.
Proof. repeat split; vm_compute; reflexivity. Qed.

(** ** [send_email]: the connection is released *)

Lemma hoare_run {A} (P Q : World -> Prop) (c : Py A) w :
  hoare P c Q (fun _ => Q) -> P w -> Q (snd (c w)).
Proof.
  intros H Hw. specialize (H w Hw). destruct (c w) as [[a|e] w1]; exact H.
Qed.

Lemma open_connections_app l1 l2 :
  open_connections (l1 ++ l2) = open_connections l1 + open_connections l2.
Proof.
  induction l1 as [|ev r IH]; simpl; [reflexivity |].
  destruct ev; rewrite IH; lia.
Qed.

Ltac tracked_leaf :=
  unfold tracked, released in *; cbv beta in *; simpl in *;
  repeat match goal with
         | H : _ /\ _ |- _ => destruct H
         end;
  rewrite ?open_connections_app; simpl;
  repeat match goal with
         | H : sock _ = _ |- _ => rewrite H in *
         end;
  repeat split; solve [auto | lia].

Lemma SMTP_close_releases base X :
  hoare (tracked base) SMTP_close (released base) X.
Proof.
  intros w Hw. unfold SMTP_close. destruct (sock w) eqn:Hs; simpl; tracked_leaf.
Qed.

(** [__exit__] leaves the connection closed, however it ends. *)
Lemma SMTP_exit_releases E base :
  hoare (tracked base) (SMTP_exit E) (released base) (fun _ => released base).
Proof.
  unfold SMTP_exit.
  eapply hoare_try_finally with (M := tracked base) (Y := fun _ => tracked base).
  - walk tracked_leaf.
  - apply SMTP_close_releases.
  - intros _. apply SMTP_close_releases.
Qed.

Lemma except_clauses_keep (I : World -> Prop) host port :
  (forall s, hoare I (print s) I (fun _ => I)) ->
  forall e,
    match select_handler (except_clauses host port) e with
    | Some h => hoare I h I (fun _ => I)
    | None => forall w, I w -> I w
    end.
Proof.
  intros Hp e. cbn [select_handler except_clauses].
  repeat match goal with
         | |- match (if ?b then _ else _) with _ => _ end => destruct b eqn:?
         end;
    first [ walk ltac:(idtac) | auto ].
Qed.

Lemma print_releases base s :
  hoare (released base) (print s) (released base) (fun _ => released base).
Proof. walk tracked_leaf. Qed.

(** Once the [with] block is entered, its body and [__exit__] keep track
    of the connection, and [__exit__] leaves it closed however the body
    ended. *)
Lemma with_block_releases E host port from_addr to_addr subject body msg base :
  hoare (tracked base)
    (try_except
       (try_finally (with_body E from_addr to_addr subject body msg) (SMTP_exit E))
       (except_clauses host port))
    (released base) (fun _ => released base).
Proof.
  eapply hoare_try_except with (Y := fun _ => released base).
  - eapply hoare_try_finally with (M := tracked base) (Y := fun _ => tracked base).
    + walk tracked_leaf.
    + apply SMTP_exit_releases.
    + intros _. apply SMTP_exit_releases.
  - apply except_clauses_keep. apply print_releases.
Qed.

(** The constructor either fails with no connection left open, or returns
    with the connection, if any, as the socket of the instance. *)
Lemma SMTP_init_tracked E host port timeout base :
  greeting_errors_are_OSError E ->
  hoare (fun w => open_connections (wire w) = base) (SMTP_init E host port timeout)
    (tracked base) (fun _ => released base).
Proof.
  intros Hg.
  assert (Hcr : forall A (e : exn),
            hoare (tracked base) (SMTP_close ;; @raise A e) (tracked base)
              (fun _ => released base)).
  { intros A e. eapply hoare_bind with (M := released base).
    - apply SMTP_close_releases.
    - intros _. apply hoare_raise. auto. }
  assert (Hopen : hoare (released base) (set_sock true ;; emit Opened) (tracked base)
                    (fun _ => released base)).
  { intros w Hw. unfold set_sock, emit, bind. simpl. tracked_leaf. }
  unfold SMTP_init.
  eapply hoare_bind with (M := fun w => open_connections (wire w) = base);
    [intros w Hw; exact Hw | intros _].
  eapply hoare_bind with (M := released base);
    [intros w Hw; split; [exact Hw | reflexivity] | intros _].
  walk ltac:(first
               [ match goal with
                 | Hr : greeting E = ReadRaises ?e,
                   Hb : isinstance ?e OSError = false |- _ =>
                     rewrite (Hg e Hr) in Hb; discriminate Hb
                 end
               | tracked_leaf ]).
Qed.

(** With socket errors only, [send_email] leaves no connection open, on
    any path. *)
Lemma send_email_releases E host port from_addr to_addr subject body msg base :
  greeting_errors_are_OSError E ->
  hoare (fun w => open_connections (wire w) = base)
    (try_except (try_block E host port from_addr to_addr subject body msg)
       (except_clauses host port))
    (released base) (fun _ => released base).
Proof.
  intros Hg.
  eapply hoare_try_except with (Y := fun _ => released base).
  - unfold try_block.
    eapply hoare_bind with (M := fun w => open_connections (wire w) = base);
      [intros w Hw; exact Hw | intros _].
    eapply hoare_with with (M := tracked base) (M' := tracked base)
                           (Y := fun _ => tracked base).
    + apply SMTP_init_tracked. exact Hg.
    + walk tracked_leaf.
    + apply SMTP_exit_releases.
    + intros _. apply SMTP_exit_releases.
  - apply except_clauses_keep. apply print_releases.
Qed.

(** After the constructor has returned, the rest of [send_email] is the
    body of the [with] block, [__exit__] and the [except] clauses. *)
Lemma send_email_entered E host port from_addr to_addr subject body part w w1 :
  MIMEText E body "plain" w = (Return part, w) ->
  SMTP_init E host port 10 (printed [attempting host port] w) = (Return tt, w1) ->
  send_email E host port from_addr to_addr subject body w
  = try_except
      (try_finally
         (with_body E from_addr to_addr subject body
            (build_message from_addr to_addr subject part))
         (SMTP_exit E))
      (except_clauses host port) w1.
Proof.
  intros Hm Hi. rewrite (send_email_constructed _ _ _ _ _ _ _ _ _ Hm).
  unfold try_except, try_block, with_, bind. rewrite print_printed, Hi. reflexivity.
Qed.

(** C3.  Whenever the connection has been opened (the constructor has
    returned and the [with] block is entered, in the world [w1]),
    [send_email] ends with the socket closed, on every exit path, whether
    the send returns or raises: the connection that was open at [w1] has
    been closed, and no other has been opened.  And when a failing read of
    the greeting fails with a socket error, as reads do, no path at all
    leaves a connection open, the failures of the constructor included. *)
Theorem connection_released
  E host port from_addr to_addr subject body part w :
  MIMEText E body "plain" w = (Return part, w) ->
  (forall w1,
     SMTP_init E host port 10 (printed [attempting host port] w) = (Return tt, w1) ->
     sock (snd (send_email E host port from_addr to_addr subject body w)) = false
     /\ open_connections
          (wire (snd (send_email E host port from_addr to_addr subject body w)))
        = open_connections (wire w1) - (if sock w1 then 1 else 0))
  /\ (greeting_errors_are_OSError E ->
      sock (snd (send_email E host port from_addr to_addr subject body w)) = false
      /\ open_connections
           (wire (snd (send_email E host port from_addr to_addr subject body w)))
         = open_connections (wire w)).
Proof.
  intros Hm. split.
  - intros w1 Hi. rewrite (send_email_entered _ _ _ _ _ _ _ _ _ _ Hm Hi).
    pose proof (hoare_run _ _ _ w1
                  (with_block_releases E host port from_addr to_addr subject body
                     (build_message from_addr to_addr subject part)
                     (open_connections (wire w1) - (if sock w1 then 1 else 0)))) as H.
    destruct H as [H1 H2]; [unfold tracked; lia | auto].
  - intros Hg. rewrite (send_email_constructed _ _ _ _ _ _ _ _ _ Hm).
    pose proof (hoare_run _ _ _ w
                  (send_email_releases E host port from_addr to_addr subject body
                     (build_message from_addr to_addr subject part)
                     (open_connections (wire w)) Hg) eq_refl) as [H1 H2].
    auto.
Qed.

(** The server drops the connection while the message is sent: the send
    raises, and the socket is closed all the same.  The server never
    greets: the constructor fails, and the socket is closed as well. *)
Lemma connection_released_witness :
  (sock (snd (send_email env_dropped (PStr "localhost") (PInt 25) (PStr "a@example.com")
                (PStr "b@example.com") (PStr "Hi") (PStr "Hello") world0)) = false
   /\ open_connections
        (wire (snd (send_email env_dropped (PStr "localhost") (PInt 25)
                      (PStr "a@example.com") (PStr "b@example.com") (PStr "Hi")
                      (PStr "Hello") world0)))
      = 1 - 1)
  /\ (sock (snd (send_email env_silent (PStr "localhost") (PInt 25)
                   (PStr "a@example.com") (PStr "b@example.com") (PStr "Hi")
                   (PStr "Hello") world0)) = false
      /\ open_connections
           (wire (snd (send_email env_silent (PStr "localhost") (PInt 25)
                         (PStr "a@example.com") (PStr "b@example.com") (PStr "Hi")
                         (PStr "Hello") world0)))
         = 0).
Proof.
  split.
  - exact (proj1 (connection_released env_dropped (PStr "localhost") (PInt 25)
                    (PStr "a@example.com") (PStr "b@example.com") (PStr "Hi")
                    (PStr "Hello") _ world0 eq_refl) _ eq_refl).
  - apply (proj2 (connection_released env_silent (PStr "localhost") (PInt 25)
                    (PStr "a@example.com") (PStr "b@example.com") (PStr "Hi")
                    (PStr "Hello") _ world0 eq_refl)).
    intros e H. injection H as <-. reflexivity.
Defined.

(** ** [send_email]: what goes on the wire *)

Ltac wire_leaf :=
  unfold connects_with_timeout, transmits_only in *; cbv beta in *; simpl in *;
  repeat match goal with
         | H : _ /\ _ |- _ => destruct H
         end;
  repeat split;
  first
    [ assumption
    | reflexivity
    | let Hin := fresh "Hin" in
      (intros ? ? ? Hin || intros ? ? Hin);
      apply in_app_or in Hin; destruct Hin as [Hin | [Hin | []]];
      [ eauto
      | first [ discriminate Hin
              | injection Hin as <- <- <-; auto
              | injection Hin as <- <-; subst; auto ] ] ].

(** Every connection attempt of [send_email] is made with the timeout of
    10 seconds. *)
Lemma send_email_timeout E host port from_addr to_addr subject body w0 :
  hoare (connects_with_timeout 10 w0)
    (send_email E host port from_addr to_addr subject body)
    (connects_with_timeout 10 w0) (fun _ => connects_with_timeout 10 w0).
Proof. walk wire_leaf. Qed.

(** C4, as amended.  [send_email] makes its connection attempts with the
    fixed timeout of 10 seconds.  When the server accepts the connection
    and never answers, so that the read of its greeting times out,
    [smtplib] turns the timeout into [SMTPServerDisconnected]: the
    operation ends (it returns normally, the socket closed) with the
    ServerDisconnected report.  When it is the connection attempt itself
    that times out, the report is the generic one. *)
Theorem timeout_reported E host port from_addr to_addr subject body w :
  (forall h p t,
     In (Connecting h p t)
       (wire (snd (send_email E host port from_addr to_addr subject body w))) ->
     In (Connecting h p t) (wire w) \/ t = 10)
  /\ (forall part e,
        MIMEText E body "plain" w = (Return part, w) ->
        truthy host = true -> truthy port = true ->
        create_connection E host port 10 = None ->
        greeting E = ReadRaises e ->
        isinstance e TimeoutError = true ->
        send_email E host port from_addr to_addr subject body w
        = (Return tt,
           {| stdout := stdout w ++
                attempting host port ::
                disconnected_report
                  (Exn SMTPServerDisconnected
                     ("Connection unexpectedly closed: " ++ exn_str e));
              stderr := stderr w;
              wire := wire w ++ [Connecting host port 10; Opened; Closed];
              debuglevel := 0; sock := false |}))
  /\ (forall part e,
        MIMEText E body "plain" w = (Return part, w) ->
        truthy host = true -> truthy port = true ->
        create_connection E host port 10 = Some e ->
        isinstance e TimeoutError = true ->
        send_email E host port from_addr to_addr subject body w
        = (Return tt,
           {| stdout := stdout w ++ attempting host port :: other_report e;
              stderr := stderr w;
              wire := wire w ++ [Connecting host port 10];
              debuglevel := 0; sock := false |})).
Proof.
  split; [| split].
  - apply (hoare_run _ _ _ w (send_email_timeout E host port from_addr to_addr
                                subject body w)).
    intros h p t H. left. exact H.
  - intros part e Hm Hh Hp Hc Hg He.
    rewrite (send_email_constructed _ _ _ _ _ _ _ _ _ Hm).
    pose proof (SMTP_init_no_greeting E host port e
                  (printed [attempting host port] w) Hh Hp Hc Hg
                  (issubclass_Timeout_OSError _ He)) as Hi.
    rewrite (handled _ _ _ _ _ _ _ _ _ _ _
               (try_block_init_fails _ _ _ from_addr to_addr subject body _ _ _ _ Hi)
               eq_refl).
    rewrite report_disconnected. unfold printed.
    cbn [stdout stderr wire debuglevel sock]. rewrite <- app_assoc. reflexivity.
  - intros part e Hm Hh Hp Hc He.
    rewrite (send_email_constructed _ _ _ _ _ _ _ _ _ Hm).
    pose proof (SMTP_init_no_connection E host port e
                  (printed [attempting host port] w) Hh Hp Hc) as Hi.
    rewrite (handled _ _ _ _ _ _ _ _ _ _ _
               (try_block_init_fails _ _ _ from_addr to_addr subject body _ _ _ _ Hi)
               (issubclass_OSError_Exception _ (issubclass_Timeout_OSError _ He))).
    unfold report, isinstance.
    rewrite (issubclass_Timeout_not_Refused _ He),
      (issubclass_Timeout_not_Disconnected _ He).
    unfold printed. cbn [stdout stderr wire debuglevel sock].
    rewrite <- app_assoc. reflexivity.
Qed.

(** A server that accepts the connection and stays silent; and a
    connection attempt that times out. *)
Lemma timeout_reported_witness :
  send_email env_silent (PStr "localhost") (PInt 25) (PStr "a@example.com")
    (PStr "b@example.com") (PStr "Hi") (PStr "Hello") world0
  = (Return tt,
     {| stdout := ["Attempting to connect to localhost:25...";
                   "Server disconnected: Connection unexpectedly closed: timed out";
                   "This might happen if:";
                   "1. The server doesn't accept the connection";
                   "2. The server requires authentication";
                   "3. The server closed the connection unexpectedly"];
        stderr := [];
        wire := [Connecting (PStr "localhost") (PInt 25) 10; Opened; Closed];
        debuglevel := 0; sock := false |})
  /\ send_email env_unreachable (PStr "localhost") (PInt 25) (PStr "a@example.com")
       (PStr "b@example.com") (PStr "Hi") (PStr "Hello") world0
     = (Return tt,
        {| stdout := ["Attempting to connect to localhost:25...";
                      "Failed to send email: timed out";
                      "Error type: TimeoutError"];
           stderr := [];
           wire := [Connecting (PStr "localhost") (PInt 25) 10];
           debuglevel := 0; sock := false |}).
Proof.
  split.
  - exact (proj1 (proj2 (timeout_reported env_silent (PStr "localhost") (PInt 25)
                           (PStr "a@example.com") (PStr "b@example.com") (PStr "Hi")
                           (PStr "Hello") world0))
             _ (Exn TimeoutError "timed out") eq_refl eq_refl eq_refl eq_refl eq_refl
             eq_refl).
  - exact (proj2 (proj2 (timeout_reported env_unreachable (PStr "localhost") (PInt 25)
                           (PStr "a@example.com") (PStr "b@example.com") (PStr "Hi")
                           (PStr "Hello") world0))
             _ (Exn TimeoutError "timed out") eq_refl eq_refl eq_refl eq_refl eq_refl).
Defined.

(** The claim as stated fails: with a server that accepts the connection
    and never answers, the failure is reported as ServerDisconnected, and
    no generic report is printed. *)
Lemma silent_server_not_other :
  stdout (snd (run_script env_silent []))
  = ["Attempting to connect to localhost:25...";
     "Server disconnected: Connection unexpectedly closed: timed out";
     "This might happen if:";
     "1. The server doesn't accept the connection";
     "2. The server requires authentication";
     "3. The server closed the connection unexpectedly"]
  /\ existsb (String.prefix "Failed to send email: ")
       (stdout (snd (run_script env_silent []))) = false
  /\ existsb (String.prefix "Error type: ")
       (stdout (snd (run_script env_silent []))) = false.
Proof. repeat split; vm_compute; reflexivity. Qed.

Ltac field_leaf :=
  cbv beta in *; simpl in *;
  repeat match goal with
         | H : _ /\ _ |- _ => destruct H
         end;
  try match goal with
      | H : debuglevel ?w = _, H' : context [debuglevel ?w] |- _ =>
          rewrite H in H'; discriminate H'
      end;
  repeat split; solve [assumption | congruence | reflexivity].


Lemma SMTP_init_quiet E host port timeout s :
  hoare (fun w => stderr w = s) (SMTP_init E host port timeout)
    (fun w => stderr w = s /\ debuglevel w = 0)
    (fun _ w => stderr w = s /\ debuglevel w = 0).
Proof. walk field_leaf. Qed.

(** Under debug level 1 every line of an exchange is printed. *)
Lemma for_each_debug (f : string -> debug_line) ls w :
  debuglevel w = 1 ->
  for_each (fun l => SMTP_debug (f l)) ls w
  = (Return tt,
     {| stdout := stdout w;
        stderr := stderr w ++ map (fun l => Debug false (f l)) ls;
        wire := wire w; debuglevel := 1; sock := sock w |}).
Proof.
  revert w. induction ls as [|l r IH]; intros w Hd.
  - destruct w. simpl in *. subst. rewrite app_nil_r. reflexivity.
  - simpl. unfold bind, SMTP_debug at 1. rewrite Hd. simpl.
    rewrite IH by exact Hd. simpl. rewrite <- app_assoc. reflexivity.
Qed.

(** The [try] statement run from [w1] with the body [c1] is the one run
    from [w2] with the body [c2], when [c1] from [w1] does what [c2] does
    from [w2]. *)
Lemma reroot {A} (c1 c2 : Py A) final clauses w1 w2 :
  c1 w1 = c2 w2 ->
  try_except (try_finally c1 final) clauses w1
  = try_except (try_finally c2 final) clauses w2.
Proof. intros H. unfold try_except, try_finally. rewrite H. reflexivity. Qed.

(** What is left of the body of the [with] block once the exchange of
    [send_message] has been printed. *)
Lemma with_body_connected E from_addr to_addr subject body msg w :
  sock w = true ->
  with_body E from_addr to_addr subject body msg w
  = ((match send_message_outcome E msg with
      | Sent => ret tt
      | SendFails e still_open =>
          (if still_open then ret tt else SMTP_close) ;; raise e
      end) ;;
     echo_success from_addr to_addr subject body)
      {| stdout := stdout w ++ ["Connected to server"; "Attempting to send message..."];
         stderr := stderr w ++
                   map (fun l => Debug false (DbgExchange l)) (send_message_exchange E msg);
         wire := wire w ++ [Transmit msg 1];
         debuglevel := 1; sock := true |}.
Proof.
  intros Hs. destruct w as [out err wi lvl s]. cbn [sock] in Hs. subst s.
  unfold with_body, echo_success, SMTP_send_message, SMTP_set_debuglevel, transmit,
    print, emit, bind.
  cbn -[SMTP_debug for_each app String.append nl].
  rewrite for_each_debug by reflexivity.
  cbn -[SMTP_debug for_each app String.append nl].
  rewrite <- !app_assoc. cbn [app].
  destruct (send_message_outcome E msg) as [|e b]; [reflexivity |].
  destruct b; reflexivity.
Qed.

Ltac prefix_leaf :=
  unfold stdout_from, stderr_from in *; cbv beta in *; simpl in *;
  repeat match goal with
         | H : _ /\ _ |- _ => destruct H
         | H : exists _, _ |- _ => destruct H
         end;
  repeat split; try assumption; try congruence;
  match goal with
  | H : ?l = _ |- exists _, (?l ++ _)%list = _ =>
      rewrite H, <- app_assoc; eexists; reflexivity
  | H : ?l = _ |- exists _, ?l = _ => rewrite H; eexists; reflexivity
  end.

(** From a world in which [pre] has been printed, everything that follows
    the transmission keeps [pre] as a prefix of the output, and leaves the
    debug level alone. *)
Lemma after_transmission E host port (c : Py unit) out err :
  hoare (fun w => stdout_from out w /\ stderr_from err w /\ debuglevel w = 1) c
    (fun w => stdout_from out w /\ stderr_from err w /\ debuglevel w = 1)
    (fun _ w => stdout_from out w /\ stderr_from err w /\ debuglevel w = 1) ->
  hoare (fun w => stdout_from out w /\ stderr_from err w /\ debuglevel w = 1)
    (try_except (try_finally c (SMTP_exit E)) (except_clauses host port))
    (fun w => stdout_from out w /\ stderr_from err w /\ debuglevel w = 1)
    (fun _ w => stdout_from out w /\ stderr_from err w /\ debuglevel w = 1).
Proof. intros Hc. walk prefix_leaf. Qed.

(** The only message [send_email] transmits is the one it built, and it
    transmits it under debug level 1. *)
Lemma with_body_transmits E from_addr to_addr subject body msg w0 :
  hoare (transmits_only msg 1 w0) (with_body E from_addr to_addr subject body msg)
    (transmits_only msg 1 w0) (fun _ => transmits_only msg 1 w0).
Proof.
  eapply hoare_conseq
    with (P' := transmits_only msg 1 w0)
         (Q' := fun w => transmits_only msg 1 w0 w /\ debuglevel w = 1)
         (X' := fun _ w => transmits_only msg 1 w0 w /\ debuglevel w = 1).
  - walk wire_leaf.
  - auto.
  - intros w [H _]. exact H.
  - intros e w [H _]. exact H.
Qed.

Lemma try_transmits E host port from_addr to_addr subject body msg w0 :
  hoare (transmits_only msg 1 w0)
    (try_except (try_block E host port from_addr to_addr subject body msg)
       (except_clauses host port))
    (transmits_only msg 1 w0) (fun _ => transmits_only msg 1 w0).
Proof.
  pose proof (with_body_transmits E from_addr to_addr subject body msg w0) as Hb.
  walk wire_leaf.
Qed.

Lemma send_email_transmits E host port from_addr to_addr subject body part w m l :
  MIMEText E body "plain" w = (Return part, w) ->
  In (Transmit m l)
    (wire (snd (send_email E host port from_addr to_addr subject body w))) ->
  In (Transmit m l) (wire w)
  \/ (m = build_message from_addr to_addr subject part /\ l = 1).
Proof.
  intros Hm. rewrite (send_email_constructed _ _ _ _ _ _ _ _ _ Hm).
  revert m l. apply (hoare_run _ _ _ w (try_transmits _ _ _ _ _ _ _ _ w)).
  intros m l H. left. exact H.
Qed.

(** ** [send_email]: the message and the success output *)



(** ** [send_email]: the debug output *)

Lemma after_init_failure E host port from_addr to_addr subject body part e w w1 :
  MIMEText E body "plain" w = (Return part, w) ->
  SMTP_init E host port 10 (printed [attempting host port] w) = (Raise e, w1) ->
  stderr (snd (send_email E host port from_addr to_addr subject body w)) = stderr w1
  /\ debuglevel (snd (send_email E host port from_addr to_addr subject body w))
     = debuglevel w1.
Proof.
  intros Hm Hi. rewrite (send_email_constructed _ _ _ _ _ _ _ _ _ Hm).
  unfold try_except.
  rewrite (try_block_init_fails _ _ _ from_addr to_addr subject body _ _ _ _ Hi).
  cbn [select_handler except_clauses].
  destruct (isinstance e ConnectionRefusedError); [split; reflexivity |].
  destruct (isinstance e SMTPServerDisconnected); [split; reflexivity |].
  destruct (isinstance e Exception); split; reflexivity.
Qed.

(** Whatever happens in the [with] block, it ends at debug level 1. *)
Lemma with_block_debuglevel E host port from_addr to_addr subject body msg :
  hoare (fun _ => True)
    (try_except
       (try_finally (with_body E from_addr to_addr subject body msg) (SMTP_exit E))
       (except_clauses host port))
    (fun w => debuglevel w = 1) (fun _ w => debuglevel w = 1).
Proof. walk field_leaf. Qed.

(** C8, as amended.  Debug output is enabled only once the connection
    attempt has succeeded.  When the constructor returns, the debug level
    is set to 1 and stays there: the message is transmitted under level 1,
    and with an open connection the exchange of [send_message] is printed
    on standard error.  When the constructor raises, the debug level is
    still 0 at the end and nothing at all has been printed on standard
    error. *)
Theorem debug_output_once_connected
  E host port from_addr to_addr subject body part w :
  MIMEText E body "plain" w = (Return part, w) ->
  (forall w1,
     SMTP_init E host port 10 (printed [attempting host port] w) = (Return tt, w1) ->
     debuglevel (snd (send_email E host port from_addr to_addr subject body w)) = 1
     /\ (sock w1 = true ->
         stderr_from
           (stderr w ++
            map (fun l => Debug false (DbgExchange l))
              (send_message_exchange E (build_message from_addr to_addr subject part)))
           (snd (send_email E host port from_addr to_addr subject body w))))
  /\ (forall m l,
        In (Transmit m l)
          (wire (snd (send_email E host port from_addr to_addr subject body w))) ->
        In (Transmit m l) (wire w) \/ l = 1)
  /\ (forall e w1,
        SMTP_init E host port 10 (printed [attempting host port] w) = (Raise e, w1) ->
        debuglevel (snd (send_email E host port from_addr to_addr subject body w)) = 0
        /\ stderr (snd (send_email E host port from_addr to_addr subject body w))
           = stderr w).
Proof.
  intros Hm. split; [| split].
  - intros w1 Hi.
    pose proof (hoare_run _ _ _ (printed [attempting host port] w)
                  (SMTP_init_quiet E host port 10 (stderr w)) eq_refl) as Hq.
    rewrite Hi in Hq. cbn [snd] in Hq. destruct Hq as [Herr _].
    rewrite (send_email_entered _ _ _ _ _ _ _ _ _ _ Hm Hi). split.
    + apply (hoare_run _ _ _ w1 (with_block_debuglevel _ _ _ _ _ _ _ _) I).
    + intros Hs.
      rewrite (reroot _ _ _ _ _ _ (with_body_connected _ _ _ _ _ _ _ Hs)).
      match goal with
      | |- stderr_from ?err (snd (try_except (try_finally ?c _) _ ?w3)) =>
          assert (Hc : hoare
                         (fun w => stdout_from (stdout w3) w /\ stderr_from err w
                                   /\ debuglevel w = 1) c
                         (fun w => stdout_from (stdout w3) w /\ stderr_from err w
                                   /\ debuglevel w = 1)
                         (fun _ w => stdout_from (stdout w3) w /\ stderr_from err w
                                     /\ debuglevel w = 1));
          [ unfold echo_success; walk prefix_leaf |];
          pose proof (hoare_run _ _ _ w3 (after_transmission E host port c _ _ Hc)) as H
      end.
      apply H. repeat split.
      * exists []. rewrite app_nil_r. reflexivity.
      * exists []. cbn [stderr]. rewrite Herr, app_nil_r. reflexivity.
  - intros m l H. destruct (send_email_transmits _ _ _ _ _ _ _ _ _ _ _ Hm H) as [|[_ ?]];
      auto.
  - intros e w1 Hi.
    pose proof (hoare_run _ _ _ (printed [attempting host port] w)
                  (SMTP_init_quiet E host port 10 (stderr w)) eq_refl) as Hq.
    rewrite Hi in Hq. cbn [snd] in Hq. destruct Hq as [Herr Hlvl].
    destruct (after_init_failure _ _ _ from_addr to_addr subject _ _ _ _ _ Hm Hi)
      as [H1 H2].
    rewrite H1, H2. auto.
Qed.

(** With a server that takes the message, the exchange is on standard
    error at the end, and the debug level is 1.  With nothing listening,
    the debug level stays 0 and standard error stays empty. *)
Lemma debug_output_once_connected_witness :
  (debuglevel (snd (send_email env_ok (PStr "localhost") (PInt 25) (PStr "a@example.com")
                      (PStr "b@example.com") (PStr "Hi") (PStr "Hello") world0)) = 1
   /\ stderr_from
        (map (fun l => Debug false (DbgExchange l))
           ["send: ehlo"; "reply: 250"; "send: mail FROM"; "reply: 250";
            "send: rcpt TO"; "reply: 250"; "send: data"; "reply: 354"; "reply: 250"])
        (snd (send_email env_ok (PStr "localhost") (PInt 25) (PStr "a@example.com")
                (PStr "b@example.com") (PStr "Hi") (PStr "Hello") world0)))
  /\ (debuglevel (snd (send_email env_refused (PStr "localhost") (PInt 25)
                         (PStr "a@example.com") (PStr "b@example.com") (PStr "Hi")
                         (PStr "Hello") world0)) = 0
      /\ stderr (snd (send_email env_refused (PStr "localhost") (PInt 25)
                        (PStr "a@example.com") (PStr "b@example.com") (PStr "Hi")
                        (PStr "Hello") world0)) = []).
Proof.
  split.
  - destruct (proj1 (debug_output_once_connected env_ok (PStr "localhost") (PInt 25)
                       (PStr "a@example.com") (PStr "b@example.com") (PStr "Hi")
                       (PStr "Hello") _ world0 eq_refl) _ eq_refl) as [H1 H2].
    split; [exact H1 | exact (H2 eq_refl)].
  - exact (proj2 (proj2 (debug_output_once_connected env_refused (PStr "localhost")
                           (PInt 25) (PStr "a@example.com") (PStr "b@example.com")
                           (PStr "Hi") (PStr "Hello") _ world0 eq_refl))
             _ _ eq_refl).
Defined.

(** The claim as stated fails: when nothing listens on the port the
    invocation reaches the connection attempt, and the debug level is
    never raised and nothing is printed on standard error. *)
Lemma refused_connection_no_debug :
  wire (snd (run_script env_refused [])) = [Connecting (PStr "localhost") (PInt 25) 10]
  /\ debuglevel (snd (run_script env_refused [])) = 0
  /\ stderr (snd (run_script env_refused [])) = [].
Proof. repeat split; vm_compute; reflexivity. Qed.

(** ** [main]: one send at most *)

Ltac count_leaf :=
  unfold connects, transmissions, at_most_one_more in *; cbv beta in *; simpl in *;
  rewrite ?filter_app; simpl; rewrite ?app_nil_r;
  first
    [ assumption
    | left; assumption
    | match goal with
      | H : _ = _ |- _ => right; eexists; rewrite H; reflexivity
      end ].

Lemma main_connects E argv l0 :
  hoare (fun w => connects w = l0) (main E argv)
    (fun w => at_most_one_more l0 (connects w))
    (fun _ w => at_most_one_more l0 (connects w)).
Proof. walk count_leaf. Qed.

Lemma main_transmissions E argv l0 :
  hoare (fun w => transmissions w = l0) (main E argv)
    (fun w => at_most_one_more l0 (transmissions w))
    (fun _ w => at_most_one_more l0 (transmissions w)).
Proof. walk count_leaf. Qed.

(** ** [argparse]: the namespace *)

Lemma lookup_setattr ns n v m :
  lookup (setattr ns n v) m = if String.eqb n m then Some v else lookup ns m.
Proof.
  induction ns as [|[k x] r IH]; simpl.
  - reflexivity.
  - destruct (String.eqb_spec k n) as [->|Hkn]; simpl.
    + destruct (String.eqb n m); reflexivity.
    + rewrite IH. destruct (String.eqb_spec k m) as [->|Hkm]; [| reflexivity].
      destruct (String.eqb_spec n m) as [->|]; [contradiction | reflexivity].
Qed.

Lemma find_action_In l opt a :
  find_action l opt = Some a -> In a l /\ option_string a = opt.
Proof.
  induction l as [|b r IH]; simpl; [discriminate |].
  destruct (String.eqb_spec (option_string b) opt) as [Heq|].
  - intros H. injection H as <-. auto.
  - intros H. destruct (IH H). auto.
Qed.

(** The six arguments [main] registers. *)
Lemma parser_actions :
  actions parser =
  [ {| option_string := "--host"; dest := "host"; type := type_str;
       default := PStr "localhost" |};
    {| option_string := "--port"; dest := "port"; type := type_int;
       default := PInt 25 |};
    {| option_string := "--from"; dest := "from_addr"; type := type_str;
       default := PStr "sender@example.com" |};
    {| option_string := "--to"; dest := "to_addr"; type := type_str;
       default := PStr "recipient@example.com" |};
    {| option_string := "--subject"; dest := "subject"; type := type_str;
       default := PStr "Test Subject Word1 Word2" |};
    {| option_string := "--body"; dest := "body"; type := type_str;
       default := PStr "This is a test email body." |} ].
Proof. reflexivity. Qed.

Ltac parser_cases H :=
  apply find_action_In in H; rewrite parser_actions in H;
  let Hin := fresh "Hin" in
  destruct H as [Hin H]; simpl in Hin;
  repeat (destruct Hin as [Hin | Hin]; [subst |]);
  [.. | contradiction].

(** Two options of the parser that set the same attribute are the same
    option. *)
Lemma parser_dest_injective o1 o2 a1 a2 :
  find_action (actions parser) o1 = Some a1 ->
  find_action (actions parser) o2 = Some a2 ->
  dest a1 = dest a2 -> o1 = o2.
Proof.
  intros H1 H2 Hd. parser_cases H1; parser_cases H2;
    solve [reflexivity | discriminate Hd].
Qed.

(** Storing the converted argument of one of the parser's options keeps
    the namespace complete. *)
Lemma complete_setattr ns opt a arg v :
  find_action (actions parser) opt = Some a ->
  get_value a arg = Some v ->
  complete ns -> complete (setattr ns (dest a) v).
Proof.
  intros Ha Hv (h & p & f & t & s & b & H1 & H2 & H3 & H4 & H5 & H6).
  unfold complete. setoid_rewrite lookup_setattr.
  parser_cases Ha; unfold get_value in Hv; simpl in Hv; simpl;
    try (injection Hv as <-); do 6 eexists; repeat split; eauto.
Qed.

(** A successful reading of the command line changes nothing in the
    world, keeps the namespace complete, and leaves alone every attribute
    whose option does not occur. *)
Lemma take_actions_returns E tokens : forall ns ns' w w1,
  take_actions E parser tokens ns w = (Return ns', w1) ->
  w1 = w
  /\ (complete ns -> complete ns')
  /\ (forall opt a,
        find_action (actions parser) opt = Some a ->
        (forall arg, ~ In (TokOption opt arg) tokens) ->
        lookup ns' (dest a) = lookup ns (dest a)).
Proof.
  assert (Herr : forall m A (r : A) w w1, parser_error E parser m w <> (Return r, w1)).
  { intros m A r w w1. unfold parser_error, parser_exit, bind, eprint, raise.
    discriminate. }
  induction tokens as [|t r IH]; intros ns ns' w w1 H; cbn [take_actions] in H.
  - injection H as <- <-. auto.
  - destruct t as [o arg| |m].
    + destruct (find_action (actions parser) o) as [a'|] eqn:Ha';
        [| destruct (Herr _ _ _ _ _ H)].
      destruct (get_value a' arg) as [v|] eqn:Hv; [| destruct (Herr _ _ _ _ _ H)].
      destruct (IH _ _ _ _ H) as (Hw & Hc & Hl). split; [exact Hw |]. split.
      * intros Hns. apply Hc. eapply complete_setattr; eauto.
      * intros opt a Ha Hno. rewrite (Hl opt a Ha).
        -- rewrite lookup_setattr.
           destruct (String.eqb_spec (dest a') (dest a)) as [Hd|]; [| reflexivity].
           exfalso. apply (Hno arg). left.
           rewrite (parser_dest_injective _ _ _ _ Ha' Ha Hd). reflexivity.
        -- intros arg' Hin. apply (Hno arg'). right. exact Hin.
    + unfold parser_exit, bind, print, raise in H. discriminate H.
    + destruct (Herr _ _ _ _ _ H).
Qed.

Lemma parse_args_returns E argv ns w w1 :
  parse_args E parser argv w = (Return ns, w1) ->
  take_actions E parser (fst (scan_argv E parser argv)) defaults w = (Return ns, w)
  /\ w1 = w.
Proof.
  unfold parse_args, parse_known_args, bind.
  change (fold_left _ (actions parser) []) with defaults.
  destruct (take_actions E parser (fst (scan_argv E parser argv)) defaults w)
    as [[ns'|e] w'] eqn:Ht; [| discriminate].
  destruct (take_actions_returns _ _ _ _ _ _ Ht) as (-> & _).
  unfold ret. cbn [fst snd]. destruct (snd (scan_argv E parser argv)).
  - intros H. injection H as <- <-. auto.
  - unfold parser_error, parser_exit, bind, eprint, raise. discriminate.
Qed.

Lemma complete_defaults : complete defaults.
Proof. unfold complete. do 6 eexists. repeat split; reflexivity. Qed.

(** With a complete namespace [main] goes on to its one call of
    [send_email], on the attributes of the namespace. *)
Lemma main_calls_send_email E argv ns w w1 :
  parse_args E parser argv w = (Return ns, w1) ->
  exists host port from_addr to_addr subject body,
    lookup ns "host" = Some host /\ lookup ns "port" = Some port
    /\ lookup ns "from_addr" = Some from_addr /\ lookup ns "to_addr" = Some to_addr
    /\ lookup ns "subject" = Some subject /\ lookup ns "body" = Some (PStr body)
    /\ main E argv w = send_email E host port from_addr to_addr subject (PStr body) w.
Proof.
  intros Hp. destruct (parse_args_returns _ _ _ _ _ Hp) as [Ht ->].
  destruct (take_actions_returns _ _ _ _ _ _ Ht) as (_ & Hc & _).
  destruct (Hc complete_defaults) as (h & p & f & t & s & b & H1 & H2 & H3 & H4 & H5 & H6).
  exists h, p, f, t, s, b. repeat (split; [assumption |]).
  unfold main, bind at 1. rewrite Hp. unfold getattr, bind.
  rewrite H1, H2, H3, H4, H5, H6. reflexivity.
Qed.

(** ** [main]: defaults, the one call, the exit status *)

(** C5.  Whenever the command line is accepted, [main] calls [send_email]
    on the six attributes of the parsed namespace, and each attribute whose flag
    does not occur on the command line has its default: [localhost], 25,
    [sender@example.com], [recipient@example.com],
    [Test Subject Word1 Word2] and [This is a test email body.]. *)
Theorem omitted_flags_take_defaults E argv ns w w1 :
  parse_args E parser argv w = (Return ns, w1) ->
  exists host port from_addr to_addr subject body,
    main E argv w = send_email E host port from_addr to_addr subject body w
    /\ (lookup ns "host" = Some host /\ lookup ns "port" = Some port
        /\ lookup ns "from_addr" = Some from_addr /\ lookup ns "to_addr" = Some to_addr
        /\ lookup ns "subject" = Some subject /\ lookup ns "body" = Some body)
    /\ (omitted E argv "--host" -> host = PStr "localhost")
    /\ (omitted E argv "--port" -> port = PInt 25)
    /\ (omitted E argv "--from" -> from_addr = PStr "sender@example.com")
    /\ (omitted E argv "--to" -> to_addr = PStr "recipient@example.com")
    /\ (omitted E argv "--subject" -> subject = PStr "Test Subject Word1 Word2")
    /\ (omitted E argv "--body" -> body = PStr "This is a test email body.").
Proof.
  intros Hp.
  destruct (main_calls_send_email _ _ _ _ _ Hp)
    as (h & p & f & t & s & b & H1 & H2 & H3 & H4 & H5 & H6 & Hmain).
  destruct (parse_args_returns _ _ _ _ _ Hp) as [Ht _].
  destruct (take_actions_returns _ _ _ _ _ _ Ht) as (_ & _ & Hl).
  exists h, p, f, t, s, (PStr b). split; [exact Hmain |].
  split; [repeat split; assumption |].
  assert (Hdef : forall opt a v,
            find_action (actions parser) opt = Some a ->
            lookup ns (dest a) = Some v ->
            omitted E argv opt -> v = default a).
  { intros opt a v Ha Hv Ho. rewrite (Hl opt a Ha Ho) in Hv.
    revert Hv. clear - Ha. parser_cases Ha; cbn; congruence. }
  repeat split; intros Ho.
  - exact (Hdef "--host" _ _ eq_refl H1 Ho).
  - exact (Hdef "--port" _ _ eq_refl H2 Ho).
  - exact (Hdef "--from" _ _ eq_refl H3 Ho).
  - exact (Hdef "--to" _ _ eq_refl H4 Ho).
  - exact (Hdef "--subject" _ _ eq_refl H5 Ho).
  - exact (Hdef "--body" _ _ eq_refl H6 Ho).
Qed.

(** Only the port is given: the other five values are the defaults. *)
Lemma omitted_flags_take_defaults_witness :
  main env_refused ["--port"; "2525"] world0
  = send_email env_refused (PStr "localhost") (PInt 2525) (PStr "sender@example.com")
      (PStr "recipient@example.com") (PStr "Test Subject Word1 Word2")
      (PStr "This is a test email body.") world0.
Proof.
  destruct (omitted_flags_take_defaults env_refused ["--port"; "2525"]
              (setattr defaults "port" (PInt 2525)) world0 world0 eq_refl)
    as (h & p & f & t & s & b & Hmain & (_ & Hp & _) & Hh & _ & Hf & Ht & Hs & Hb).
  rewrite Hmain. injection Hp as <-.
  rewrite Hh, Hf, Ht, Hs, Hb;
    try (intros a [H | [ ]]; discriminate H).
  reflexivity.
Defined.

(** [parse_args] leaves only by returning or through [parser.exit]. *)
Lemma parse_args_exits E argv :
  raises_only (fun e => e = SysExit 0 \/ e = SysExit 2) (parse_args E parser argv).
Proof. unfold raises_only. walk ltac:(auto). Qed.

(** [MIMEText] builds the part of a string it can encode, and raises
    [UnicodeEncodeError] on any other string. *)
Lemma MIMEText_encodable E body w :
  encodable E body = true ->
  exists part, MIMEText E (PStr body) "plain" w = (Return part, w).
Proof.
  unfold encodable, MIMEText. destruct (is_ascii body); [eexists; reflexivity |].
  destruct (utf8_encode_error E body); [discriminate |]. eexists; reflexivity.
Qed.

Lemma MIMEText_not_encodable E body w :
  encodable E body = false ->
  exists m,
    utf8_encode_error E body = Some m
    /\ MIMEText E (PStr body) "plain" w = (Raise (Exn UnicodeEncodeError m), w).
Proof.
  unfold encodable, MIMEText. destruct (is_ascii body); [discriminate |].
  destruct (utf8_encode_error E body) as [m|]; [| discriminate].
  exists m. split; reflexivity.
Qed.

(** In an orderly environment [send_email] returns normally once the
    message is built. *)
Lemma send_email_returns E host port from_addr to_addr subject body part w :
  orderly E ->
  MIMEText E body "plain" w = (Return part, w) ->
  fst (send_email E host port from_addr to_addr subject body w) = Return tt.
Proof.
  intros Ho Hm. rewrite (send_email_constructed _ _ _ _ _ _ _ _ _ Hm).
  pose proof (try_block_raises_Exception E host port from_addr to_addr subject
                body (build_message from_addr to_addr subject part) Ho w I) as Hr.
  destruct (try_block E host port from_addr to_addr subject body
              (build_message from_addr to_addr subject part) w) as [[[]|e] w1] eqn:Ht.
  - unfold try_except. rewrite Ht. reflexivity.
  - rewrite (handled _ _ _ _ _ _ _ _ _ _ _ Ht Hr). reflexivity.
Qed.

(** When the message cannot be built, the exception of [MIMEText] is the
    outcome of [send_email], in the world it started in. *)
Lemma send_email_not_constructed E host port from_addr to_addr subject body e w :
  MIMEText E body "plain" w = (Raise e, w) ->
  send_email E host port from_addr to_addr subject body w = (Raise e, w).
Proof. intros Hm. rewrite send_email_eq. unfold bind. rewrite Hm. reflexivity. Qed.

Lemma send_email_outcome E host port from_addr to_addr subject body w :
  orderly E ->
  fst (send_email E host port from_addr to_addr subject body w) = Return tt
  \/ exists c m, fst (send_email E host port from_addr to_addr subject body w)
                 = Raise (Exn c m).
Proof.
  intros Ho. destruct body as [b| |].
  - destruct (encodable E b) eqn:Hb.
    + destruct (MIMEText_encodable E b w Hb) as [part Hm].
      left. exact (send_email_returns _ _ _ _ _ _ _ _ _ Ho Hm).
    + destruct (MIMEText_not_encodable E b w Hb) as (m & _ & Hm).
      right. rewrite (send_email_not_constructed _ _ _ _ _ _ _ _ _ Hm).
      do 2 eexists. reflexivity.
  - right. do 2 eexists. reflexivity.
  - right. do 2 eexists. reflexivity.
Qed.





Lemma orderly_env_ok : orderly env_ok.
Proof. repeat split; simpl; unfold orderly_read; intros; discriminate. Qed.





(** A body with a byte that is not valid UTF-8: the command line is
    accepted, the message constructor raises before the [try] statement,
    and the process ends with a traceback and status 1, nothing printed or
    sent. *)
Example undecodable_body_ends_with_traceback :
  let body := String (ascii_of_nat 255) EmptyString in
  (exists ns, parse_args env_undecodable parser ["--body"; body] world0
              = (Return ns, world0))
  /\ fst (run_script env_undecodable ["--body"; body]) = 1
  /\ stdout (snd (run_script env_undecodable ["--body"; body])) = []
  /\ wire (snd (run_script env_undecodable ["--body"; body])) = [].
Proof.
  cbv zeta. split; [eexists; reflexivity |].
  split; [reflexivity |]. split; reflexivity.
Qed.

(** An interruption is not a failure of the send: [KeyboardInterrupt]
    does not derive from [Exception], no [except] clause catches it, and
    the process ends with status 130, its connection closed all the same. *)
Example interrupt_is_not_caught :
  fst (run_script env_interrupted []) = 130
  /\ sock (snd (run_script env_interrupted [])) = false
  /\ ~ orderly env_interrupted.
Proof.
  split; [vm_compute; reflexivity |]. split; [vm_compute; reflexivity |].
  intros (_ & _ & H & _).
  specialize (H (build_message PNone PNone PNone (mkPart [] EmptyString)) _ _ eq_refl).
  discriminate H.
Qed.

(** C7, as amended.  An invocation makes at most one connection attempt
    and at most one transmission, whatever fails; and whenever the command
    line is accepted, [main] is exactly one call of [send_email]. *)
Theorem one_send_at_most E argv w :
  at_most_one_more (connects w) (connects (snd (main E argv w)))
  /\ at_most_one_more (transmissions w) (transmissions (snd (main E argv w)))
  /\ (forall ns w1,
        parse_args E parser argv w = (Return ns, w1) ->
        exists host port from_addr to_addr subject body,
          main E argv w = send_email E host port from_addr to_addr subject body w).
Proof.
  split; [| split].
  - apply (hoare_run _ _ _ w (main_connects E argv (connects w)) eq_refl).
  - apply (hoare_run _ _ _ w (main_transmissions E argv (transmissions w)) eq_refl).
  - intros ns w1 Hp.
    destruct (main_calls_send_email _ _ _ _ _ Hp)
      as (h & p & f & t & s & b & _ & _ & _ & _ & _ & _ & Hmain).
    exists h, p, f, t, s, (PStr b). exact Hmain.
Qed.

(** With the default command line and a server that takes the message:
    one connection attempt, one transmission. *)
Lemma one_send_at_most_witness :
  at_most_one_more [] (connects (snd (main env_ok [] world0)))
  /\ at_most_one_more [] (transmissions (snd (main env_ok [] world0)))
  /\ exists host port from_addr to_addr subject body,
       main env_ok [] world0
       = send_email env_ok host port from_addr to_addr subject body world0.
Proof.
  destruct (one_send_at_most env_ok [] world0) as (H1 & H2 & H3).
  split; [exact H1 |]. split; [exact H2 |].
  exact (H3 defaults world0 eq_refl).
Defined.

(** The claim as stated fails: asked for help, [main] prints the help and
    exits; it does not call [send_email], and nothing goes on the wire. *)
Lemma help_sends_nothing :
  fst (main env_ok ["--help"] world0) = Raise (SysExit 0)
  /\ wire (snd (main env_ok ["--help"] world0)) = []
  /\ ~ (exists host port from_addr to_addr subject body w,
          main env_ok ["--help"] world0
          = send_email env_ok host port from_addr to_addr subject body w).
Proof.
  split; [reflexivity |]. split; [reflexivity |].
  intros (h & p & f & t & s & b & w & H).
  apply (f_equal fst) in H. cbn [fst] in H.
  change (fst (main env_ok ["--help"] world0)) with (@Raise unit (SysExit 0)) in H.
  destruct (send_email_outcome env_ok h p f t s b w orderly_env_ok)
    as [Hr | (c & m & Hr)];
    rewrite Hr in H; discriminate H.
Qed.
